(** * Type generation for worker configurations

    A shallow embedding of [generateTypes] and [writeDTSFile]: the mapping
    of a configuration's bindings to the lines of [worker-configuration.d.ts],
    the assembly of those lines into one of two shapes, and the guarded write
    to the file system. *)

From stdpp Require Import gmap strings list pretty.
From Stdlib Require Import ZArith Ascii.

Open Scope string_scope.
Open Scope list_scope.
Set Warnings "-register-all".

(** ** The JavaScript values and string operations the generator uses *)

Module JS.

(** A number, given the way number-to-string conversion reads it.  A
    finite number other than zero is [Finite negative s n]: its magnitude is
    0.d1...dk times 10^n, where d1...dk are the decimal digits of [s] without
    its trailing zeros, the shortest digits that denote the number.  So 8080
    is [Finite false 808 4], 1.5 is [Finite false 15 1], 2^63 is
    [Finite false 9223372036854776 19] and 10^21 is [Finite false 1 22].
    The two zeros print alike and are one value. *)
Inductive number :=
| NaN
| Infinity (negative : bool)
| Zero
| Finite (negative : bool) (s : positive) (n : Z).

(** Data nested inside an object-valued variable. *)
Inductive json :=
| JNull
| JBool (b : bool)
| JNum (x : number)
| JStr (s : string)
| JArr (items : list json)
| JObj (props : list (string * json)).

(** A value found under a key of [vars].  Arrays and plain objects both
    have [typeof] "object"; [VFunction], [VSymbol] and [VBigInt] stand for
    the values whose [typeof] is none of the four names tested. *)
Inductive value :=
| VUndefined
| VNull
| VBoolean (b : bool)
| VNumber (x : number)
| VString (s : string)
| VArray (items : list json)
| VObject (props : list (string * json))
| VFunction
| VSymbol
| VBigInt (z : Z).

Definition typeof (v : value) : string :=
  match v with
  | VUndefined => "undefined"
  | VNull => "object"
  | VBoolean _ => "boolean"
  | VNumber _ => "number"
  | VString _ => "string"
  | VArray _ | VObject _ => "object"
  | VFunction => "function"
  | VSymbol => "symbol"
  | VBigInt _ => "bigint"
  end.

Definition is_null (v : value) : bool :=
  match v with VNull => true | _ => false end.

(** The number of an integer: its digits and their count.  It is the
    number the integer literal denotes as long as the integer is a safe one
    (magnitude below 2^53). *)
Definition integer (z : Z) : number :=
  match z with
  | Z0 => Zero
  | Zpos s => Finite false s (Z.of_nat (String.length (pretty s)))
  | Zneg s => Finite true s (Z.of_nat (String.length (pretty s)))
  end.

(** [Number::toString] in radix 10.  With [digits] the k shortest digits
    and [n] the decimal exponent: the digits followed by zeros when
    k <= n <= 21, the digits with a point inside when 0 < n <= 21, the digits
    after [0.] and zeros when -6 < n <= 0, the exponential notation
    otherwise. *)
Fixpoint strip_zeros (digits : string) : string :=
  match digits with
  | EmptyString => EmptyString
  | String c rest =>
      match strip_zeros rest with
      | EmptyString => if Ascii.eqb c "0" then EmptyString else String c EmptyString
      | kept => String c kept
      end
  end.

Fixpoint zeros (count : nat) : string :=
  match count with
  | O => EmptyString
  | S count => String "0" (zeros count)
  end.

Definition Number_toString (x : number) : string :=
  match x with
  | NaN => "NaN"
  | Infinity false => "Infinity"
  | Infinity true => "-Infinity"
  | Zero => "0"
  | Finite negative s n =>
      let digits := strip_zeros (pretty s) in
      let k := Z.of_nat (String.length digits) in
      (if negative then "-" else EmptyString) +:+
      (if (k <=? n)%Z && (n <=? 21)%Z
       then digits +:+ zeros (Z.to_nat (n - k))
       else if (0 <? n)%Z && (n <=? 21)%Z
       then String.substring 0 (Z.to_nat n) digits +:+ "."
              +:+ String.substring (Z.to_nat n) (Z.to_nat (k - n)) digits
       else if (-6 <? n)%Z && (n <=? 0)%Z
       then "0." +:+ zeros (Z.to_nat (- n)) +:+ digits
       else
         let e := (n - 1)%Z in
         let exponent :=
           "e" +:+ (if (0 <=? e)%Z then "+" else "-") +:+ pretty (Z.abs e) in
         if (k =? 1)%Z then digits +:+ exponent
         else String.substring 0 1 digits +:+ "."
                +:+ String.substring 1 (Z.to_nat (k - 1)) digits +:+ exponent)
  end.

(** String conversion inside a template literal.  The generator applies
    it to strings, numbers and booleans only; the last branch is never
    reached from it. *)
Definition ToString (v : value) : string :=
  match v with
  | VString s => s
  | VNumber x => Number_toString x
  | VBoolean true => "true"
  | VBoolean false => "false"
  | VUndefined => "undefined"
  | VNull => "null"
  | VBigInt z => pretty z
  | _ => EmptyString
  end.

(** The characters that cannot be written inside a string literal. *)
Definition dquote : string := String "034"%char EmptyString.
Definition nl : string := String "010"%char EmptyString.
Definition tab : string := String "009"%char EmptyString.

(** [Array.prototype.push], returning the extended array. *)
Definition push {A} (arr : list A) (x : A) : list A := arr ++ [x].

(** [for (const x of xs) body] and [for (const k in obj) body], threading
    the state the body updates.  An object is given by its enumerable
    properties in enumeration order; the body of [for_in] receives the
    key together with the value stored under it. *)
Definition for_of {A S} (xs : list A) (body : S → A → S) (s : S) : S :=
  fold_left body xs s.

Definition for_in {V S} (obj : list (string * V)) (body : S → string → V → S)
    (s : S) : S :=
  fold_left (λ acc kv, body acc kv.1 kv.2) obj s.

(** [Array.prototype.join]. *)
Fixpoint join (sep : string) (xs : list string) : string :=
  match xs with
  | [] => EmptyString
  | [x] => x
  | x :: rest => x +:+ sep +:+ join sep rest
  end.

(** [String.prototype.includes]. *)
Fixpoint includes (needle hay : string) : bool :=
  String.prefix needle hay ||
  match hay with
  | EmptyString => false
  | String _ rest => includes needle rest
  end.

(** [String.prototype.split] for a one-character separator: [cur] is the
    segment being read, in reverse. *)
Fixpoint split_go (sep : ascii) (cur : string) (s : string) : list string :=
  match s with
  | EmptyString => [String.rev cur]
  | String c rest =>
      if Ascii.eqb c sep then String.rev cur :: split_go sep EmptyString rest
      else split_go sep (String c cur) rest
  end.

Definition split (sep : ascii) (s : string) : list string :=
  split_go sep EmptyString s.

(** [Array.prototype.at(-1)]: the last element, [undefined] on an empty
    array. *)
Definition at_last {A} (xs : list A) : option A := last xs.

(** Truthiness of a possibly undefined string, and of a possibly
    undefined array length. *)
Definition truthy_string (o : option string) : bool :=
  match o with Some s => negb (s =? EmptyString) | None => false end.

Definition truthy_length (o : option nat) : bool :=
  match o with Some n => negb (n =? 0)%nat | None => false end.

(** Interpolation of a possibly undefined string. *)
Definition interpolate (o : option string) : string :=
  match o with Some s => s | None => "undefined" end.

(** [JSON.stringify] without indentation.  [quote] is the string quoting
    it applies to string values and property names: the two-character
    escapes, a [\u00xx] escape for the other control characters, every
    other character as it is.  A number that is not finite is serialized as
    [null]. *)
Definition hex_digit (n : N) : string :=
  match String.get (N.to_nat n) "0123456789abcdef" with
  | Some c => String c EmptyString
  | None => "0"
  end.

Definition escape_char (c : ascii) : string :=
  let n := N_of_ascii c in
  if (n =? 8)%N then "\b"
  else if (n =? 9)%N then "\t"
  else if (n =? 10)%N then "\n"
  else if (n =? 12)%N then "\f"
  else if (n =? 13)%N then "\r"
  else if (n =? 34)%N then "\" +:+ dquote
  else if (n =? 92)%N then "\\"
  else if (n <? 32)%N then "\u00" +:+ hex_digit (n / 16) +:+ hex_digit (n mod 16)
  else String c EmptyString.

Fixpoint escape (s : string) : string :=
  match s with
  | EmptyString => EmptyString
  | String c rest => escape_char c +:+ escape rest
  end.

Definition quote (s : string) : string := dquote +:+ escape s +:+ dquote.

Fixpoint stringify (j : json) : string :=
  match j with
  | JNull => "null"
  | JBool true => "true"
  | JBool false => "false"
  | JNum (NaN | Infinity _) => "null"
  | JNum x => Number_toString x
  | JStr s => quote s
  | JArr items => "[" +:+ join "," (map stringify items) +:+ "]"
  | JObj props =>
      "{" +:+ join "," (map (λ '(k, v), quote k +:+ ":" +:+ stringify v) props)
      +:+ "}"
  end.

(** [JSON.stringify] at a value of type "object" other than [null]; the
    generator applies it to nothing else. *)
Definition JSON_stringify (v : value) : string :=
  match v with
  | VArray items => stringify (JArr items)
  | VObject props => stringify (JObj props)
  | _ => "undefined"
  end.

End JS.

(** ** The configuration

    The fields [generateTypes] reads.  An entry of a binding collection is
    kept as the one identifier the generator takes from it. *)

Record Binding := { binding : string }.
Record NamedBinding := { name : string }.
Record Bindings (A : Type) := { bindings : option (list A) }.
Arguments bindings {A} _.
Record Queues := { producers : option (list Binding) }.
Record Rule := { type : string; globs : list string }.
Record Site := { entry_point : option string }.

Record Config := {
  main : option string;
  site : option Site;
  kv_namespaces : option (list Binding);
  vars : option (list (string * JS.value));
  durable_objects : option (Bindings NamedBinding);
  r2_buckets : option (list Binding);
  d1_databases : option (list Binding);
  services : option (list Binding);
  constellation : option (list Binding);
  analytics_engine_datasets : option (list Binding);
  dispatch_namespaces : option (list Binding);
  logfwdr : option (Bindings NamedBinding);
  data_blobs : option (list (string * string));
  text_blobs : option (list (string * string));
  unsafe : option (Bindings NamedBinding);
  queues : option Queues;
  rules : option (list Rule)
}.

(** A configuration with every field absent. *)
Definition no_config : Config :=
  {| main := None; site := None; kv_namespaces := None; vars := None;
     durable_objects := None; r2_buckets := None; d1_databases := None;
     services := None; constellation := None;
     analytics_engine_datasets := None; dispatch_namespaces := None;
     logfwdr := None; data_blobs := None; text_blobs := None; unsafe := None;
     queues := None; rules := None |}.

(** The same configuration with another [vars], [logfwdr] or [rules]. *)
Definition with_vars (cfg : Config) (vs : option (list (string * JS.value)))
    : Config :=
  {| main := main cfg; site := site cfg; kv_namespaces := kv_namespaces cfg;
     vars := vs;
     durable_objects := durable_objects cfg; r2_buckets := r2_buckets cfg;
     d1_databases := d1_databases cfg; services := services cfg;
     constellation := constellation cfg;
     analytics_engine_datasets := analytics_engine_datasets cfg;
     dispatch_namespaces := dispatch_namespaces cfg; logfwdr := logfwdr cfg;
     data_blobs := data_blobs cfg; text_blobs := text_blobs cfg;
     unsafe := unsafe cfg; queues := queues cfg; rules := rules cfg |}.

Definition with_logfwdr (cfg : Config) (l : option (Bindings NamedBinding))
    : Config :=
  {| main := main cfg; site := site cfg; kv_namespaces := kv_namespaces cfg;
     vars := vars cfg;
     durable_objects := durable_objects cfg; r2_buckets := r2_buckets cfg;
     d1_databases := d1_databases cfg; services := services cfg;
     constellation := constellation cfg;
     analytics_engine_datasets := analytics_engine_datasets cfg;
     dispatch_namespaces := dispatch_namespaces cfg; logfwdr := l;
     data_blobs := data_blobs cfg; text_blobs := text_blobs cfg;
     unsafe := unsafe cfg; queues := queues cfg; rules := rules cfg |}.

Definition with_rules (cfg : Config) (rs : option (list Rule)) : Config :=
  {| main := main cfg; site := site cfg; kv_namespaces := kv_namespaces cfg;
     vars := vars cfg;
     durable_objects := durable_objects cfg; r2_buckets := r2_buckets cfg;
     d1_databases := d1_databases cfg; services := services cfg;
     constellation := constellation cfg;
     analytics_engine_datasets := analytics_engine_datasets cfg;
     dispatch_namespaces := dispatch_namespaces cfg; logfwdr := logfwdr cfg;
     data_blobs := data_blobs cfg; text_blobs := text_blobs cfg;
     unsafe := unsafe cfg; queues := queues cfg; rules := rs |}.

(** The two entry-point formats. *)
Inductive CfScriptFormat := modules | service_worker.

(** ** The mapper: the first part of [generateTypes] *)

Section Mapper.
Import JS.

(** [if (field) { for (const entry of field) push(...) }] *)
Definition each {A} (field : option (list A)) (line : A → string)
    (env : list string) : list string :=
  match field with
  | Some entries => for_of entries (λ env entry, push env (line entry)) env
  | None => env
  end.

(** The body of the loop over [vars]. *)
Definition var_body (env : list string) (varName : string) (varValue : value)
    : list string :=
  let env :=
    if (typeof varValue =? "string") || (typeof varValue =? "number")
       || (typeof varValue =? "boolean")
    then push env (varName +:+ ": " +:+ dquote +:+ ToString varValue +:+ dquote +:+ ";")
    else env in
  if (typeof varValue =? "object") && negb (is_null varValue)
  then push env (varName +:+ ": " +:+ JSON_stringify varValue +:+ ";")
  else env.

(** [if (configToDTS.vars) { for (const varName in configToDTS.vars) ... }] *)
Definition vars_block (configToDTS : Config) (env : list string) : list string :=
  match vars configToDTS with
  | Some vs => for_in vs var_body env
  | None => env
  end.

(** [if (configToDTS.logfwdr?.bindings?.length) push(...)] *)
Definition logfwdr_block (configToDTS : Config) (env : list string)
    : list string :=
  if truthy_length (length <$> (logfwdr configToDTS ≫= bindings))
  then push env "LOGFWDR_SCHEMA: any;"
  else env.

(** [if (blobs) { for (const key in blobs) push(`${key}: T;`) }] *)
Definition blobs_block (blobs : option (list (string * string)))
    (suffix : string) (env : list string) : list string :=
  match blobs with
  | Some blobs => for_in blobs (λ env key _, push env (key +:+ suffix)) env
  | None => env
  end.

(** [if (configToDTS.queues) { if (configToDTS.queues.producers) ... }] *)
Definition queues_block (configToDTS : Config) (env : list string)
    : list string :=
  match queues configToDTS with
  | Some qs => each (producers qs) (λ queue, binding queue +:+ ": Queue;") env
  | None => env
  end.

Definition envTypeStructure (configToDTS : Config) : list string :=
  let env : list string := [] in
  let env := each (kv_namespaces configToDTS)
               (λ kvNamespace, binding kvNamespace +:+ ": KVNamespace;") env in
  let env := vars_block configToDTS env in
  let env := each (durable_objects configToDTS ≫= bindings)
               (λ durableObject, name durableObject +:+ ": DurableObjectNamespace;") env in
  let env := each (r2_buckets configToDTS)
               (λ R2Bucket, binding R2Bucket +:+ ": R2Bucket;") env in
  let env := each (d1_databases configToDTS)
               (λ d1, binding d1 +:+ ": D1Database;") env in
  let env := each (services configToDTS)
               (λ service, binding service +:+ ": Fetcher;") env in
  let env := each (constellation configToDTS)
               (λ service, binding service +:+ ": Fetcher;") env in
  let env := each (analytics_engine_datasets configToDTS)
               (λ analyticsEngine, binding analyticsEngine +:+ ": AnalyticsEngineDataset;") env in
  let env := each (dispatch_namespaces configToDTS)
               (λ namespace, binding namespace +:+ ": DispatchNamespace;") env in
  let env := logfwdr_block configToDTS env in
  let env := blobs_block (data_blobs configToDTS) ": ArrayBuffer;" env in
  let env := blobs_block (text_blobs configToDTS) ": string;" env in
  let env := each (unsafe configToDTS ≫= bindings)
               (λ unsafe, name unsafe +:+ ": any;") env in
  queues_block configToDTS env.

(** The table of default-export types, keyed by rule type.  A rule's type
    is one of the literals of the configuration's rule-type union, so a
    lookup finds an own key of the table or nothing. *)
Definition moduleTypeMap (key : string) : option string :=
  if key =? "Text" then Some "string"
  else if key =? "Data" then Some "ArrayBuffer"
  else if key =? "CompiledWasm" then Some "WebAssembly.Module"
  else None.

Definition module_declaration (typeScriptType glob : string) : string :=
  "declare module " +:+ dquote +:+ "*." +:+ interpolate (at_last (split "." glob))
    +:+ dquote +:+ " {" +:+ nl
    +:+ tab +:+ "const value: " +:+ typeScriptType +:+ ";" +:+ nl
    +:+ tab +:+ "export default value;" +:+ nl
    +:+ "}".

(** The body of the loop over [rules]. *)
Definition rule_body (mods : list string) (ruleObject : Rule) : list string :=
  let typeScriptType := moduleTypeMap (type ruleObject) in
  match typeScriptType with
  | Some typeScriptType =>
      for_of (globs ruleObject)
        (λ mods glob, push mods (module_declaration typeScriptType glob)) mods
  | None => mods
  end.

Definition modulesTypeStructure (configToDTS : Config) : list string :=
  let mods : list string := [] in
  match rules configToDTS with
  | Some rs => for_of rs rule_body mods
  | None => mods
  end.

End Mapper.

(** ** The file system, the process and the effects of the writer *)

(** What a [throw] carries: a [UserError], an [Error] raised by the file
    system, or a value that is no instance of [Error]. *)
Inductive exn :=
| UserError (message : string)
| SystemError (message : string)
| NonError.

Definition instanceof_Error (e : exn) : bool :=
  match e with NonError => false | _ => true end.

Definition message (e : exn) : string :=
  match e with UserError m | SystemError m => m | NonError => EmptyString end.

(** A file is found by [stat] as a regular file; reading it gives its
    content or fails with the message of the error. *)
Inductive node :=
| File (content : string)
| Unreadable (error_message : string).

(** Paths are absolute: the names from the root down. *)
Record World := {
  files : gmap (list string) node;
  logged : list string
}.

(** The working directory and the text of [new Date()] at the write. *)
Record Process := {
  cwd : list string;
  now : string
}.

Definition M (A : Type) : Type := Process → World → (exn + A) * World.

Definition ret {A} (a : A) : M A := λ _ w, (inr a, w).
Definition throw {A} (e : exn) : M A := λ _ w, (inl e, w).
Definition bind {A B} (m : M A) (k : A → M B) : M B :=
  λ p w, match m p w with
         | (inr a, w') => k a p w'
         | (inl e, w') => (inl e, w')
         end.
Definition try_catch {A} (body : M A) (handler : exn → M A) : M A :=
  λ p w, match body p w with
         | (inr a, w') => (inr a, w')
         | (inl e, w') => handler e p w'
         end.

#[global] Instance M_ret : MRet M := @ret.
#[global] Instance M_bind : MBind M := λ A B k m, bind m k.

Definition show_path (p : list string) : string :=
  "/" +:+ JS.join "/" p.

(** [findUpSync(name)]: the nearest regular file of that name in the working
    directory or one of its ancestors.  The directory is walked from the
    innermost name outwards. *)
Fixpoint findUp_from (rev_dir : list string) (name : string)
    (fs : gmap (list string) node) : option (list string) :=
  let candidate := rev rev_dir ++ [name] in
  match fs !! candidate with
  | Some _ => Some candidate
  | None =>
      match rev_dir with
      | [] => None
      | _ :: parent => findUp_from parent name fs
      end
  end.

Definition findUpSync (name : string) : M (option (list string)) :=
  λ p w, (inr (findUp_from (rev (cwd p)) name (files w)), w).

Definition readFileSync (path : list string) : M string :=
  λ _ w, match files w !! path with
         | Some (File content) => (inr content, w)
         | Some (Unreadable msg) => (inl (SystemError msg), w)
         | None =>
             (inl (SystemError ("ENOENT: no such file or directory, open '"
                                  +:+ show_path path +:+ "'")), w)
         end.

(** [writeFileSync] with a relative file name: resolved against the working
    directory, created or overwritten.  The write itself is taken to
    succeed: a directory or file that refuses the write is not modelled. *)
Definition writeFileSync (name : string) (data : string) : M unit :=
  λ p w, (inr tt, {| files := <[cwd p ++ [name] := File data]> (files w);
                     logged := logged w |}).

Definition logger_log (line : string) : M unit :=
  λ _ w, (inr tt, {| files := files w; logged := logged w ++ [line] |}).

Definition new_Date : M string := λ p w, (inr (now p), w).

(** ** The writer *)

Section Writer.
Import JS.

Definition foreign_file_message : string :=
  "A non-wrangler worker-configuration.d.ts already exists, please rename and try again.".

(** The [try] block of the ownership check and its [catch] clause. *)
Definition ownership_check (wranglerOverrideDTSPath : option (list string))
    : M unit :=
  match wranglerOverrideDTSPath with
  | Some path =>
      content ← readFileSync path;
      if negb (includes "Generated by Wrangler" content)
      then throw (UserError foreign_file_message)
      else ret tt
  | None => ret tt
  end.

Definition ownership_catch (error : exn) : M unit :=
  if instanceof_Error error && negb (includes "not found" (message error))
  then throw error
  else ret tt.

Definition combinedTypeStrings (envTypeStructure modulesTypeStructure : list string)
    (formatType : CfScriptFormat) : string :=
  match formatType with
  | modules =>
      "interface Env {" +:+ nl
        +:+ join nl (map (λ value, tab +:+ value) envTypeStructure)
        +:+ nl +:+ "}" +:+ nl +:+ join nl modulesTypeStructure
  | service_worker =>
      "export {};" +:+ nl +:+ "declare global {" +:+ nl
        +:+ join nl (map (λ value, tab +:+ "const " +:+ value) envTypeStructure)
        +:+ nl +:+ "}" +:+ nl +:+ join nl modulesTypeStructure
  end.

Definition writeDTSFile (envTypeStructure modulesTypeStructure : list string)
    (formatType : CfScriptFormat) : M unit :=
  wranglerOverrideDTSPath ← findUpSync "worker-configuration.d.ts";
  try_catch (ownership_check wranglerOverrideDTSPath) ownership_catch;;
  let combined := combinedTypeStrings envTypeStructure modulesTypeStructure formatType in
  if negb (length envTypeStructure =? 0)%nat || negb (length modulesTypeStructure =? 0)%nat
  then
    date ← new_Date;
    writeFileSync "worker-configuration.d.ts"
      ("// Generated by Wrangler on " +:+ date +:+ nl +:+ combined);;
    logger_log combined
  else ret tt.

End Writer.

(** ** [generateTypes]

    [getEntry config] stands for [(await getEntry({}, config, "types")).format]:
    the entry-point resolution is a collaborator, free to fail and to act on
    the world. *)

Section GenerateTypes.
Variable getEntry : Config → M CfScriptFormat.

Definition generateTypes (configToDTS config : Config) : M unit :=
  let configContainsEntryPoint :=
    bool_decide (main config ≠ None)
    || JS.truthy_string (site config ≫= entry_point) in
  entrypointFormat ←
    (if configContainsEntryPoint then getEntry config else ret modules);
  writeDTSFile (envTypeStructure configToDTS) (modulesTypeStructure configToDTS)
    entrypointFormat.

End GenerateTypes.

(** * Descriptions used in the statements

    ** The mapper, kind by kind

    The description of the member list that the specification gives: one
    segment per binding kind, the kinds in one fixed sequence.  It is compared
    with [envTypeStructure] in [envTypeStructure_by_kind]. *)

Inductive kind :=
| KvNamespaces | Vars | DurableObjects | R2Buckets | D1Databases | Services
| Constellation | AnalyticsEngineDatasets | DispatchNamespaces | Logfwdr
| DataBlobs | TextBlobs | Unsafe | QueueProducers.

Definition kind_order : list kind :=
  [KvNamespaces; Vars; DurableObjects; R2Buckets; D1Databases; Services;
   Constellation; AnalyticsEngineDatasets; DispatchNamespaces; Logfwdr;
   DataBlobs; TextBlobs; Unsafe; QueueProducers].

(** The static table from kind to type name; [vars] has no fixed type. *)
Definition type_name (k : kind) : string :=
  match k with
  | KvNamespaces => "KVNamespace"
  | Vars => EmptyString
  | DurableObjects => "DurableObjectNamespace"
  | R2Buckets => "R2Bucket"
  | D1Databases => "D1Database"
  | Services | Constellation => "Fetcher"
  | AnalyticsEngineDatasets => "AnalyticsEngineDataset"
  | DispatchNamespaces => "DispatchNamespace"
  | Logfwdr | Unsafe => "any"
  | DataBlobs => "ArrayBuffer"
  | TextBlobs => "string"
  | QueueProducers => "Queue"
  end.

(** The identifiers of the entries of a kind, in collection order. *)
Definition identifiers (cfg : Config) (k : kind) : list string :=
  match k with
  | KvNamespaces => default [] (map binding <$> kv_namespaces cfg)
  | Vars => default [] (map fst <$> vars cfg)
  | DurableObjects => default [] (map name <$> (durable_objects cfg ≫= bindings))
  | R2Buckets => default [] (map binding <$> r2_buckets cfg)
  | D1Databases => default [] (map binding <$> d1_databases cfg)
  | Services => default [] (map binding <$> services cfg)
  | Constellation => default [] (map binding <$> constellation cfg)
  | AnalyticsEngineDatasets => default [] (map binding <$> analytics_engine_datasets cfg)
  | DispatchNamespaces => default [] (map binding <$> dispatch_namespaces cfg)
  | Logfwdr => default [] (map name <$> (logfwdr cfg ≫= bindings))
  | DataBlobs => default [] (map fst <$> data_blobs cfg)
  | TextBlobs => default [] (map fst <$> text_blobs cfg)
  | Unsafe => default [] (map name <$> (unsafe cfg ≫= bindings))
  | QueueProducers => default [] (map binding <$> (queues cfg ≫= producers))
  end.

Definition member_line (identifier type_text : string) : string :=
  identifier +:+ ": " +:+ type_text +:+ ";".

Definition primitive (v : JS.value) : bool :=
  match v with
  | JS.VString _ | JS.VNumber _ | JS.VBoolean _ => true
  | _ => false
  end.

Definition structured (v : JS.value) : bool :=
  match v with
  | JS.VArray _ | JS.VObject _ => true
  | _ => false
  end.

(** The members one variable gives: a quoted literal for a primitive, the
    serialized object for a structured value, nothing otherwise. *)
Definition var_members (varName : string) (v : JS.value) : list string :=
  if primitive v
  then [member_line varName (JS.dquote +:+ JS.ToString v +:+ JS.dquote)]
  else if structured v
  then [member_line varName (JS.JSON_stringify v)]
  else [].

Definition kind_members (cfg : Config) (k : kind) : list string :=
  match k with
  | Vars => concat (map (λ kv, var_members kv.1 kv.2) (default [] (vars cfg)))
  | Logfwdr =>
      match identifiers cfg Logfwdr with
      | [] => []
      | _ :: _ => [member_line "LOGFWDR_SCHEMA" (type_name Logfwdr)]
      end
  | _ => map (λ identifier, member_line identifier (type_name k)) (identifiers cfg k)
  end.

(** ** The rules and the writer *)

(** The recognized content types and the type each one declares. *)
Definition recognized : list (string * string) :=
  [("Text", "string"); ("Data", "ArrayBuffer");
   ("CompiledWasm", "WebAssembly.Module")].

(** The name of the declaration file. *)
Definition declaration_file : string := "worker-configuration.d.ts".

(** Where the write goes, what the upward search finds, and the text of a
    written file. *)
Definition target (p : Process) : list string := cwd p ++ [declaration_file].

Definition found (p : Process) (w : World) : option (list string) :=
  findUp_from (rev (cwd p)) declaration_file (files w).

Definition file_text (date body : string) : string :=
  "// Generated by Wrangler on " +:+ date +:+ JS.nl +:+ body.

(** The world after the write and the log call, for lists that are not both
    empty; the same world otherwise. *)
Definition written (env mods : list string) (fmt : CfScriptFormat)
    (p : Process) (w : World) : World :=
  match env, mods with
  | [], [] => w
  | _, _ =>
      {| files := <[target p := File (file_text (now p) (combinedTypeStrings env mods fmt))]>
                    (files w);
         logged := logged w ++ [combinedTypeStrings env mods fmt] |}
  end.

(** Whether the ownership check lets the run continue. *)
Definition ownership_ok (p : Process) (w : World) : bool :=
  match found p w with
  | None => true
  | Some path =>
      match files w !! path with
      | Some (File content) => JS.includes "Generated by Wrangler" content
      | Some (Unreadable msg) => JS.includes "not found" msg
      | None => false
      end
  end.

(** ** Sample configurations *)

(** [vars = { FOO: "bar" }], [vars = { PORT: 8080 }] and
    [vars = { FOO: "bar", GONE: null, PORT: 8080 }]. *)
Definition foo_config : Config :=
  with_vars no_config (Some [("FOO", JS.VString "bar")]).
Definition null_var_config : Config :=
  with_vars no_config
    (Some [("FOO", JS.VString "bar"); ("GONE", JS.VNull); ("PORT", JS.VNumber (JS.integer 8080))]).

(** [logfwdr = { bindings: [{ name: "a" }, { name: "b" }] }]. *)
Definition logfwdr_config : Config :=
  with_logfwdr no_config
    (Some {| bindings := Some [ {| name := "a" |}; {| name := "b" |} ] |}).

(** [rules = [{ type: "Text", globs: ["*.txt"] }]], and the same with an
    [ESModule] rule after it. *)
Definition text_rule_config : Config :=
  with_rules no_config (Some [ {| type := "Text"; globs := ["*.txt"] |} ]).
Definition two_rules_config : Config :=
  with_rules no_config
    (Some [ {| type := "Text"; globs := ["*.txt"] |};
            {| type := "ESModule"; globs := ["*.mjs"] |} ]).

(** [kv_namespaces = [{ binding: "KV" }]] with a text rule. *)
Definition kv_config : Config :=
  {| main := None; site := None;
     kv_namespaces := Some [ {| binding := "KV" |} ]; vars := None;
     durable_objects := None; r2_buckets := None; d1_databases := None;
     services := None; constellation := None;
     analytics_engine_datasets := None; dispatch_namespaces := None;
     logfwdr := None; data_blobs := None; text_blobs := None; unsafe := None;
     queues := None;
     rules := Some [ {| type := "Text"; globs := ["*.txt"] |} ] |}.

(** ** Sample processes and worlds

    A project directory at two moments; a world
    with no declaration file, one with a hand-written file in the project,
    one with a generated file in the parent directory, and one whose file
    cannot be read. *)
Definition project : Process :=
  {| cwd := ["home"; "me"; "worker"];
     now := "Mon Nov 02 2026 12:00:00 GMT+0000 (Coordinated Universal Time)" |}.

Definition project_later : Process :=
  {| cwd := ["home"; "me"; "worker"];
     now := "Mon Nov 02 2026 12:00:01 GMT+0000 (Coordinated Universal Time)" |}.

Definition empty_world : World := {| files := ∅; logged := [] |}.

Definition foreign_world : World :=
  {| files := {[ ["home"; "me"; "worker"; declaration_file]
                 := File "declare const MY_GLOBAL: string;" ]};
     logged := [] |}.

Definition ancestor_world : World :=
  {| files := {[ ["home"; "me"; declaration_file]
                 := File "// Generated by Wrangler on Sun Nov 01 2026" ]};
     logged := [] |}.

Definition unreadable_world : World :=
  {| files := {[ ["home"; "me"; "worker"; declaration_file]
                 := Unreadable "EACCES: permission denied, open 'worker-configuration.d.ts'" ]};
     logged := [] |}.

(** ** Descriptions used in the further properties *)

(** A text without a dot. *)
Fixpoint dot_free (s : string) : bool :=
  match s with
  | EmptyString => true
  | String c rest => negb (Ascii.eqb c ".") && dot_free rest
  end.

(** The file the ownership check reads, if any. *)
Definition nearest_node (p : Process) (w : World) : option node :=
  found p w ≫= λ path, files w !! path.

(** A generated file in the project below a hand-written one in the parent
    directory. *)
Definition shadowing_world : World :=
  {| files := {[ ["home"; "me"; "worker"; declaration_file]
                 := File "// Generated by Wrangler on Sun Nov 01 2026";
                 ["home"; "me"; declaration_file]
                 := File "declare const MY_GLOBAL: string;" ]};
     logged := [] |}.

(** The world [empty_world] with a hand-written declaration file in a
    sibling directory and in a child directory of the project. *)
Definition sibling_world : World :=
  {| files := {[ ["home"; "me"; "other"; declaration_file]
                 := File "declare const MY_GLOBAL: string;";
                 ["home"; "me"; "worker"; "src"; declaration_file]
                 := File "declare const MY_GLOBAL: string;" ]};
     logged := [] |}.

(** What the ownership check makes of the file it reads. *)
Definition check_outcome (n : option node) : exn + unit :=
  match n with
  | None => inr tt
  | Some (File content) =>
      if JS.includes "Generated by Wrangler" content then inr tt
      else inl (UserError foreign_file_message)
  | Some (Unreadable msg) =>
      if JS.includes "not found" msg then inr tt else inl (SystemError msg)
  end.

(** A project below a directory named [not found], and a world where the
    declaration file of that directory exists and cannot be read. *)
Definition not_found_project : Process :=
  {| cwd := ["home"; "me"; "not found"; "worker"];
     now := "Mon Nov 02 2026 12:00:00 GMT+0000 (Coordinated Universal Time)" |}.

Definition denied_world : World :=
  {| files := {[ ["home"; "me"; "not found"; declaration_file]
                 := Unreadable "EACCES: permission denied, open '/home/me/not found/worker-configuration.d.ts'" ]};
     logged := [] |}.

(** * Properties *)

(** ** Loops that only push *)

Section Loops.
Import JS.

Lemma for_of_push {A} (line : A → string) (xs : list A) (env : list string) :
  for_of xs (λ env x, push env (line x)) env = env ++ map line xs.
Proof.
  unfold for_of, push. revert env.
  induction xs as [|x xs IH]; intros env; simpl.
  - by rewrite app_nil_r.
  - rewrite IH. by rewrite <- app_assoc.
Qed.

Lemma for_in_push {V} (lines : string → V → list string)
    (body : list string → string → V → list string)
    (obj : list (string * V)) (env : list string) :
  (∀ env k v, body env k v = env ++ lines k v) →
  for_in obj body env = env ++ concat (map (λ kv, lines kv.1 kv.2) obj).
Proof.
  intros Hbody. unfold for_in. revert env.
  induction obj as [|[k v] obj IH]; intros env; simpl.
  - by rewrite app_nil_r.
  - rewrite IH, Hbody. by rewrite <- app_assoc.
Qed.

Lemma each_app {A} (field : option (list A)) (line : A → string)
    (env : list string) :
  each field line env = env ++ default [] (map line <$> field).
Proof.
  unfold each. destruct field as [entries|]; simpl.
  - apply for_of_push.
  - symmetry. apply app_nil_r.
Qed.

End Loops.

(** ** The mapper, kind by kind *)

Section MapperFacts.
Import JS.

Lemma append_assoc (a b c : string) : (a +:+ b) +:+ c = a +:+ b +:+ c.
Proof.
  induction a as [|ch a IH]; [done|].
  change (String ch ((a +:+ b) +:+ c) = String ch (a +:+ b +:+ c)).
  by rewrite IH.
Qed.

Lemma typeof_primitive (v : value) :
  (typeof v =? "string") || (typeof v =? "number") || (typeof v =? "boolean")
  = primitive v.
Proof. destruct v; reflexivity. Qed.

Lemma typeof_structured (v : value) :
  (typeof v =? "object") && negb (is_null v) = structured v.
Proof. destruct v; reflexivity. Qed.

Lemma primitive_not_structured (v : value) :
  primitive v = true → structured v = false.
Proof. destruct v; done. Qed.

Lemma var_body_members (env : list string) (varName : string) (v : value) :
  var_body env varName v = env ++ var_members varName v.
Proof.
  unfold var_body, var_members, member_line, push.
  rewrite typeof_primitive, typeof_structured.
  destruct (primitive v) eqn:Hp.
  - rewrite (primitive_not_structured v Hp).
    rewrite !append_assoc. reflexivity.
  - destruct (structured v); [reflexivity | symmetry; apply app_nil_r].
Qed.

Lemma vars_block_members (cfg : Config) (env : list string) :
  vars_block cfg env = env ++ kind_members cfg Vars.
Proof.
  unfold vars_block, kind_members.
  destruct (vars cfg) as [vs|]; simpl.
  - apply (for_in_push var_members), var_body_members.
  - symmetry. apply app_nil_r.
Qed.

Lemma logfwdr_block_members (cfg : Config) (env : list string) :
  logfwdr_block cfg env = env ++ kind_members cfg Logfwdr.
Proof.
  unfold logfwdr_block, kind_members, identifiers, push.
  destruct (logfwdr cfg ≫= bindings) as [[|b bs]|]; simpl;
    rewrite ?app_nil_r; reflexivity.
Qed.

Lemma blobs_block_members (blobs : option (list (string * string)))
    (suffix : string) (env : list string) :
  blobs_block blobs suffix env
  = env ++ map (λ key, key +:+ suffix) (default [] (map fst <$> blobs)).
Proof.
  unfold blobs_block. destruct blobs as [bs|]; simpl.
  - rewrite (for_in_push (λ key _, [key +:+ suffix])); [|reflexivity].
    f_equal. induction bs as [|[k v] bs IH]; simpl; [reflexivity|].
    by rewrite IH.
  - symmetry. apply app_nil_r.
Qed.

Lemma queues_block_members (cfg : Config) (env : list string) :
  queues_block cfg env = env ++ kind_members cfg QueueProducers.
Proof.
  unfold queues_block, kind_members, identifiers.
  destruct (queues cfg) as [qs|]; simpl.
  - rewrite each_app. f_equal.
    destruct (producers qs) as [ps|]; simpl; [|reflexivity].
    by rewrite map_map.
  - symmetry. apply app_nil_r.
Qed.

Lemma each_members {A} (field : option (list A)) (identifier : A → string)
    (ty : string) (env : list string) :
  each field (λ entry, identifier entry +:+ ": " +:+ ty +:+ ";") env
  = env ++ map (λ i, member_line i ty) (default [] (map identifier <$> field)).
Proof.
  rewrite each_app. f_equal.
  destruct field as [entries|]; simpl; [|reflexivity].
  by rewrite map_map.
Qed.

(** The member list is the concatenation of the kinds' segments, in the
    order of [kind_order]. *)
Lemma envTypeStructure_by_kind (cfg : Config) :
  envTypeStructure cfg = concat (map (kind_members cfg) kind_order).
Proof.
  unfold envTypeStructure.
  rewrite queues_block_members.
  rewrite (each_members (unsafe cfg ≫= bindings) name "any").
  rewrite !blobs_block_members, logfwdr_block_members.
  rewrite (each_members (dispatch_namespaces cfg) binding "DispatchNamespace").
  rewrite (each_members (analytics_engine_datasets cfg) binding "AnalyticsEngineDataset").
  rewrite (each_members (constellation cfg) binding "Fetcher").
  rewrite (each_members (services cfg) binding "Fetcher").
  rewrite (each_members (d1_databases cfg) binding "D1Database").
  rewrite (each_members (r2_buckets cfg) binding "R2Bucket").
  rewrite (each_members (durable_objects cfg ≫= bindings) name "DurableObjectNamespace").
  rewrite vars_block_members.
  rewrite (each_members (kv_namespaces cfg) binding "KVNamespace").
  unfold kind_order. cbn [map concat].
  rewrite app_nil_r, <- !app_assoc. reflexivity.
Qed.

End MapperFacts.
(** ** The module declarations, rule by rule *)

Section ModuleFacts.
Import JS.

Lemma rule_body_app (mods : list string) (r : Rule) :
  rule_body mods r = mods ++ rule_body [] r.
Proof.
  unfold rule_body. destruct (moduleTypeMap (type r)) as [ty|].
  - by rewrite !for_of_push.
  - symmetry. apply app_nil_r.
Qed.

Lemma modulesTypeStructure_by_rule (cfg : Config) :
  modulesTypeStructure cfg = concat (map (rule_body []) (default [] (rules cfg))).
Proof.
  unfold modulesTypeStructure. destruct (rules cfg) as [rs|]; [|reflexivity].
  simpl. unfold for_of.
  enough (∀ mods, fold_left rule_body rs mods
                  = mods ++ concat (map (rule_body []) rs)) as H by apply H.
  induction rs as [|r rs IH]; intros mods; simpl.
  - symmetry. apply app_nil_r.
  - rewrite IH, (rule_body_app mods r). by rewrite <- app_assoc.
Qed.

Lemma rule_body_recognized (r : Rule) (ty : string) :
  moduleTypeMap (type r) = Some ty →
  rule_body [] r = map (module_declaration ty) (globs r).
Proof.
  intros H. unfold rule_body. rewrite H. by rewrite for_of_push.
Qed.

Lemma rule_body_unrecognized (r : Rule) :
  moduleTypeMap (type r) = None → rule_body [] r = [].
Proof. intros H. unfold rule_body. by rewrite H. Qed.

Lemma moduleTypeMap_None (key : string) :
  key ≠ "Text" → key ≠ "Data" → key ≠ "CompiledWasm" →
  moduleTypeMap key = None.
Proof.
  intros H1 H2 H3. unfold moduleTypeMap.
  apply String.eqb_neq in H1, H2, H3. by rewrite H1, H2, H3.
Qed.

(** [split] never gives an empty array, so [at(-1)] is defined. *)
Lemma split_go_last (sep : ascii) (cur s : string) :
  is_Some (last (split_go sep cur s)).
Proof.
  revert cur. induction s as [|c s IH]; intros cur; simpl.
  - by eexists.
  - destruct (Ascii.eqb c sep).
    + destruct (IH EmptyString) as [x Hx]. exists x.
      destruct (split_go sep EmptyString s); [discriminate|]. exact Hx.
    + apply IH.
Qed.

End ModuleFacts.

(** ** The writer, case by case *)

Section WriterFacts.
Import JS.

Lemma findUp_from_Some rev_dir name fs path :
  findUp_from rev_dir name fs = Some path → is_Some (fs !! path).
Proof.
  induction rev_dir as [|d parent IH]; simpl.
  - destruct (fs !! [name]) eqn:E; [|discriminate].
    intros [= <-]. rewrite E. by eexists.
  - destruct (fs !! ((rev parent ++ [d]) ++ [name])) eqn:E.
    + intros [= <-]. rewrite E. by eexists.
    + apply IH.
Qed.

(** A file found above the working directory means there is none in it. *)
Lemma found_ancestor p w path :
  found p w = Some path → path ≠ target p → files w !! target p = None.
Proof.
  unfold found, target. intros Hfound Hne.
  destruct (rev (cwd p)) as [|d parent] eqn:Hrev; simpl in Hfound.
  - apply (f_equal (@rev string)) in Hrev. rewrite rev_involutive in Hrev.
    simpl in Hrev. rewrite Hrev in *. simpl in *.
    destruct (files w !! [declaration_file]) eqn:E; [|reflexivity].
    by injection Hfound as <-.
  - apply (f_equal (@rev string)) in Hrev. rewrite rev_involutive in Hrev.
    simpl in Hrev. rewrite Hrev in *.
    destruct (files w !! ((rev parent ++ [d]) ++ [declaration_file])) eqn:E;
      [|reflexivity].
    by injection Hfound as <-.
Qed.

Lemma foreign_message_not_absorbed :
  includes "not found" foreign_file_message = false.
Proof. reflexivity. Qed.

(** The [try]/[catch] of the ownership check never changes the world; it
    throws exactly in the two cases below. *)
Lemma ownership_try_catch p w :
  try_catch (ownership_check (found p w)) ownership_catch p w
  = match found p w with
    | None => (inr tt, w)
    | Some path =>
        match files w !! path with
        | Some (File content) =>
            if includes "Generated by Wrangler" content then (inr tt, w)
            else (inl (UserError foreign_file_message), w)
        | Some (Unreadable msg) =>
            if includes "not found" msg then (inr tt, w)
            else (inl (SystemError msg), w)
        | None => (inr tt, w)
        end
    end.
Proof.
  destruct (found p w) as [path|] eqn:Hfound; [|reflexivity].
  apply findUp_from_Some in Hfound as [n Hn]. rewrite Hn.
  unfold try_catch, ownership_check, mbind, M_bind, bind, readFileSync.
  rewrite Hn. destruct n as [content|msg].
  - destruct (includes "Generated by Wrangler" content); [reflexivity|].
    simpl. unfold ownership_catch. cbn [instanceof_Error message andb].
    rewrite foreign_message_not_absorbed. reflexivity.
  - unfold ownership_catch. simpl.
    destruct (includes "not found" msg); reflexivity.
Qed.

Lemma nonempty_test (env mods : list string) :
  negb (length env =? 0)%nat || negb (length mods =? 0)%nat
  = match env, mods with [], [] => false | _, _ => true end.
Proof. destruct env, mods; reflexivity. Qed.

(** The whole of [writeDTSFile]. *)
Lemma writeDTSFile_cases env mods fmt p w :
  writeDTSFile env mods fmt p w
  = match try_catch (ownership_check (found p w)) ownership_catch p w with
    | (inr _, _) => (inr tt, written env mods fmt p w)
    | (inl e, _) => (inl e, w)
    end.
Proof.
  unfold writeDTSFile, mbind, M_bind, bind at 1 2, findUpSync.
  fold declaration_file. fold (found p w).
  rewrite ownership_try_catch.
  assert (Hcont :
    (if negb (length env =? 0)%nat || negb (length mods =? 0)%nat
     then bind new_Date (λ date,
            bind (writeFileSync declaration_file
                    ("// Generated by Wrangler on " +:+ date +:+ nl
                       +:+ combinedTypeStrings env mods fmt))
                 (λ _, logger_log (combinedTypeStrings env mods fmt)))
     else ret tt) p w = (inr tt, written env mods fmt p w)).
  { rewrite nonempty_test. unfold written.
    destruct env, mods; reflexivity. }
  destruct (found p w) as [path|]; [|exact Hcont].
  destruct (files w !! path) as [[content|msg]|]; [| |exact Hcont].
  - destruct (includes "Generated by Wrangler" content);
      [exact Hcont | reflexivity].
  - destruct (includes "not found" msg); [exact Hcont | reflexivity].
Qed.

Lemma writeDTSFile_ok env mods fmt p w :
  ownership_ok p w = true →
  writeDTSFile env mods fmt p w = (inr tt, written env mods fmt p w).
Proof.
  intros Hok. rewrite writeDTSFile_cases, ownership_try_catch.
  unfold ownership_ok in Hok.
  destruct (found p w) as [path|]; [|reflexivity].
  destruct (files w !! path) as [[content|msg]|]; [| |discriminate];
    rewrite Hok; reflexivity.
Qed.

(** A run that throws leaves the world as it was. *)
Lemma writeDTSFile_throw env mods fmt p w e w' :
  writeDTSFile env mods fmt p w = (inl e, w') → w' = w.
Proof.
  rewrite writeDTSFile_cases.
  destruct (try_catch _ _ p w) as [[e'|[]] w'']; congruence.
Qed.

(** A run that returns has made the write, or had nothing to write. *)
Lemma writeDTSFile_return env mods fmt p w w' :
  writeDTSFile env mods fmt p w = (inr tt, w') → w' = written env mods fmt p w.
Proof.
  rewrite writeDTSFile_cases.
  destruct (try_catch _ _ p w) as [[e'|[]] w'']; congruence.
Qed.

End WriterFacts.

(** ** [generateTypes] without an entry point *)

Lemma generateTypes_modules getEntry (configToDTS config : Config) :
  main config = None → JS.truthy_string (site config ≫= entry_point) = false →
  generateTypes getEntry configToDTS config
  = writeDTSFile (envTypeStructure configToDTS) (modulesTypeStructure configToDTS)
      modules.
Proof.
  intros Hmain Hsite. unfold generateTypes. rewrite Hmain, Hsite. reflexivity.
Qed.

(** ** Plain variables *)

Section VarClaims.
Import JS.

Example foo_members :
  envTypeStructure foo_config = ["FOO: " +:+ dquote +:+ "bar" +:+ dquote +:+ ";"].
Proof. reflexivity. Qed.


(** The text of a number is the one number-to-string conversion gives:
    2^63, 10^21, 1.5, 10^-7 and NaN. *)
Example number_members :
  envTypeStructure
    (with_vars no_config
       (Some [("BIG", VNumber (Finite false 9223372036854776 19));
              ("HUGE", VNumber (Finite false 1 22));
              ("RATIO", VNumber (Finite false 15 1));
              ("TINY", VNumber (Finite false 1 (-6)));
              ("NONE", VNumber NaN)]))
  = ["BIG: " +:+ dquote +:+ "9223372036854776000" +:+ dquote +:+ ";";
     "HUGE: " +:+ dquote +:+ "1e+21" +:+ dquote +:+ ";";
     "RATIO: " +:+ dquote +:+ "1.5" +:+ dquote +:+ ";";
     "TINY: " +:+ dquote +:+ "1e-7" +:+ dquote +:+ ";";
     "NONE: " +:+ dquote +:+ "NaN" +:+ dquote +:+ ";"].
Proof. reflexivity. Qed.

(** A boolean is quoted as well; an object is serialized. *)
Example boolean_and_object_members :
  envTypeStructure
    (with_vars no_config
       (Some [("DEBUG", VBoolean true);
              ("LIMITS", VObject [("max", JNum (integer 10)); ("tags", JArr [JStr "a"])])]))
  = ["DEBUG: " +:+ dquote +:+ "true" +:+ dquote +:+ ";";
     "LIMITS: {" +:+ dquote +:+ "max" +:+ dquote +:+ ":10,"
       +:+ dquote +:+ "tags" +:+ dquote +:+ ":[" +:+ dquote +:+ "a" +:+ dquote
       +:+ "]};"].
Proof. reflexivity. Qed.




Lemma var_members_skipped (varName : string) (v : value) :
  v = VNull ∨ v = VUndefined ∨ (primitive v = false ∧ typeof v ≠ "object") →
  var_members varName v = [].
Proof.
  intros [-> | [-> | [Hp Ht]]]; [reflexivity | reflexivity |].
  unfold var_members. rewrite Hp.
  destruct v; try reflexivity; by destruct Ht.
Qed.

(** C9: a variable whose value is [null], [undefined], or neither a
    string, number, boolean nor an object adds nothing to the member list;
    the members of the other variables are those of the configuration
    without it, and the run of [generateTypes] is the run on that
    configuration. *)
Theorem skipped_var (getEntry : Config → M CfScriptFormat)
    (cfg config : Config) (vs1 vs2 : list (string * value))
    (varName : string) (v : value) :
  v = VNull ∨ v = VUndefined ∨ (primitive v = false ∧ typeof v ≠ "object") →
  (∀ env, var_body env varName v = env)
  ∧ envTypeStructure (with_vars cfg (Some (vs1 ++ (varName, v) :: vs2)))
    = envTypeStructure (with_vars cfg (Some (vs1 ++ vs2)))
  ∧ generateTypes getEntry (with_vars cfg (Some (vs1 ++ (varName, v) :: vs2))) config
    = generateTypes getEntry (with_vars cfg (Some (vs1 ++ vs2))) config.
Proof.
  intros Hv. pose proof (var_members_skipped varName v Hv) as Hnil.
  assert (Henv : envTypeStructure (with_vars cfg (Some (vs1 ++ (varName, v) :: vs2)))
                 = envTypeStructure (with_vars cfg (Some (vs1 ++ vs2)))).
  { rewrite !envTypeStructure_by_kind. f_equal. apply map_ext. intros k.
    destruct k; try reflexivity.
    unfold kind_members. cbn [with_vars vars default from_option id].
    rewrite !map_app, !concat_app. cbn [map concat fst snd].
    rewrite Hnil. reflexivity. }
  split; [|split].
  - intros env. rewrite var_body_members, Hnil. apply app_nil_r.
  - exact Henv.
  - unfold generateTypes. rewrite Henv. reflexivity.
Qed.

Lemma skipped_var_witness :
  envTypeStructure null_var_config
  = ["FOO: " +:+ dquote +:+ "bar" +:+ dquote +:+ ";";
     "PORT: " +:+ dquote +:+ "8080" +:+ dquote +:+ ";"].
Proof.
  pose proof (skipped_var (λ _, ret modules) no_config no_config
                [("FOO", VString "bar")] [("PORT", VNumber (integer 8080))] "GONE" VNull
                (or_introl eq_refl)) as (_ & H & _).
  unfold null_var_config. etransitivity; [exact H|]. reflexivity.
Defined.

End VarClaims.

(** ** Bindings with a fixed type name *)

Section BindingClaims.
Import JS.

(** C4, as stated, fails for the log-forwarding kind: a configuration whose
    only bindings are two log-forwarding entries gets one member, named
    [LOGFWDR_SCHEMA] and not after an entry. *)
Lemma logfwdr_single_member :
  identifiers logfwdr_config Logfwdr = ["a"; "b"]
  ∧ envTypeStructure logfwdr_config = ["LOGFWDR_SCHEMA: any;"]
  ∧ length (envTypeStructure logfwdr_config)
    ≠ length (identifiers logfwdr_config Logfwdr).
Proof. split; [reflexivity | split; [reflexivity | discriminate]]. Qed.

(** C4, amended: the member list is the concatenation, in the fixed order
    of kinds, of one segment per kind.  For every kind other than the plain
    variables and log forwarding, the segment has exactly one line
    [IDENTIFIER: TYPE;] per entry, in collection order, with TYPE taken from
    the static table, so it has as many members as the kind has entries.
    Log forwarding gives the single member [LOGFWDR_SCHEMA: any;] when it
    has at least one entry and nothing otherwise. *)
Theorem one_member_per_entry (cfg : Config) :
  envTypeStructure cfg = concat (map (kind_members cfg) kind_order)
  ∧ (∀ k, k ≠ Vars → k ≠ Logfwdr →
       kind_members cfg k
       = map (λ identifier, identifier +:+ ": " +:+ type_name k +:+ ";")
           (identifiers cfg k)
       ∧ length (kind_members cfg k) = length (identifiers cfg k))
  ∧ kind_members cfg Logfwdr
    = (if bool_decide (identifiers cfg Logfwdr = []) then []
       else ["LOGFWDR_SCHEMA: any;"]).
Proof.
  split; [apply envTypeStructure_by_kind | split].
  - intros k HV HL.
    assert (kind_members cfg k
            = map (λ identifier, member_line identifier (type_name k))
                (identifiers cfg k)) as ->
      by (destruct k; try reflexivity; first [by destruct HV | by destruct HL]).
    split; [reflexivity | apply length_map].
  - unfold kind_members.
    destruct (identifiers cfg Logfwdr) as [|i rest]; reflexivity.
Qed.

Lemma one_member_per_entry_witness :
  kind_members kv_config KvNamespaces = ["KV: KVNamespace;"]
  ∧ length (kind_members kv_config KvNamespaces) = 1.
Proof.
  destruct (one_member_per_entry kv_config) as (_ & H & _).
  destruct (H KvNamespaces) as [Hseg Hlen]; [discriminate | discriminate |].
  split; [rewrite Hseg | rewrite Hlen]; reflexivity.
Defined.

End BindingClaims.

(** ** Import rules *)

Section RuleClaims.
Import JS.

Lemma recognized_moduleTypeMap (key ty : string) :
  (key, ty) ∈ recognized → moduleTypeMap key = Some ty.
Proof.
  unfold recognized. rewrite !elem_of_cons, elem_of_nil.
  intros [[= -> ->] | [[= -> ->] | [[= -> ->] | []]]]; reflexivity.
Qed.

Example text_rule_declaration :
  modulesTypeStructure text_rule_config
  = ["declare module " +:+ dquote +:+ "*.txt" +:+ dquote +:+ " {" +:+ nl
       +:+ tab +:+ "const value: string;" +:+ nl
       +:+ tab +:+ "export default value;" +:+ nl
       +:+ "}"].
Proof. reflexivity. Qed.

(** C7: the module declarations are those of the rules, one rule after
    the other.  A rule whose type is text, data or compiled wasm gives
    exactly one declaration per glob, declaring for [*.EXT] (EXT being the
    text after the last dot of the glob) a default export of the
    corresponding type; a rule of any other type gives none, and nothing
    fails.  The text rule with globs [*.txt] gives the [*.txt] declaration
    of type [string]. *)
Theorem rule_declarations (cfg : Config) (rs : list Rule) :
  rules cfg = Some rs →
  modulesTypeStructure cfg = concat (map (rule_body []) rs)
  ∧ (∀ r ty, r ∈ rs → (type r, ty) ∈ recognized →
       rule_body [] r = map (module_declaration ty) (globs r)
       ∧ length (rule_body [] r) = length (globs r)
       ∧ ∀ glob, ∃ ext,
           last (split "." glob) = Some ext
           ∧ module_declaration ty glob
             = "declare module " +:+ dquote +:+ "*." +:+ ext +:+ dquote
                 +:+ " {" +:+ nl
                 +:+ tab +:+ "const value: " +:+ ty +:+ ";" +:+ nl
                 +:+ tab +:+ "export default value;" +:+ nl
                 +:+ "}")
  ∧ (∀ r, r ∈ rs → (∀ ty, (type r, ty) ∉ recognized) → rule_body [] r = []).
Proof.
  intros Hrules. split; [|split].
  - rewrite modulesTypeStructure_by_rule, Hrules. reflexivity.
  - intros r ty _ Hty. apply recognized_moduleTypeMap in Hty.
    rewrite (rule_body_recognized r ty Hty).
    split; [reflexivity | split; [apply length_map|]].
    intros glob. destruct (split_go_last "." EmptyString glob) as [ext Hext].
    exists ext. split; [exact Hext|].
    unfold module_declaration, at_last, split. rewrite Hext. reflexivity.
  - intros r _ Hty. apply rule_body_unrecognized, moduleTypeMap_None.
    + intros E. apply (Hty "string"). rewrite E. apply list_elem_of_here.
    + intros E. apply (Hty "ArrayBuffer"). rewrite E.
      apply list_elem_of_further, list_elem_of_here.
    + intros E. apply (Hty "WebAssembly.Module"). rewrite E.
      do 2 apply list_elem_of_further. apply list_elem_of_here.
Qed.

Lemma rule_declarations_witness :
  modulesTypeStructure two_rules_config
  = ["declare module " +:+ dquote +:+ "*.txt" +:+ dquote +:+ " {" +:+ nl
       +:+ tab +:+ "const value: string;" +:+ nl
       +:+ tab +:+ "export default value;" +:+ nl
       +:+ "}"].
Proof.
  destruct (rule_declarations two_rules_config
              [ {| type := "Text"; globs := ["*.txt"] |};
                {| type := "ESModule"; globs := ["*.mjs"] |} ] eq_refl)
    as (Hall & Hrec & Hskip).
  rewrite Hall. cbn [map concat].
  destruct (Hrec {| type := "Text"; globs := ["*.txt"] |} "string")
    as (-> & _ & _); [apply list_elem_of_here | apply list_elem_of_here |].
  rewrite (Hskip {| type := "ESModule"; globs := ["*.mjs"] |}).
  - reflexivity.
  - apply list_elem_of_further, list_elem_of_here.
  - intros ty Hin. unfold recognized in Hin.
    rewrite !elem_of_cons, elem_of_nil in Hin.
    destruct Hin as [[=] | [[=] | [[=] | []]]].
Defined.

End RuleClaims.

(** ** The ownership check *)

Section OwnershipClaims.
Import JS.

(** C2: when the upward search finds a file whose content lacks the
    marker, [writeDTSFile] throws the foreign-file [UserError] and leaves
    the world as it was, whatever the two lists are, the empty ones
    included; so does [generateTypes] for a configuration without an entry
    point. *)
Theorem foreign_file_aborts (env mods : list string) (fmt : CfScriptFormat)
    (p : Process) (w : World) (path : list string) (content : string) :
  found p w = Some path →
  files w !! path = Some (File content) →
  includes "Generated by Wrangler" content = false →
  writeDTSFile env mods fmt p w = (inl (UserError foreign_file_message), w)
  ∧ ∀ getEntry configToDTS config,
      main config = None →
      truthy_string (site config ≫= entry_point) = false →
      generateTypes getEntry configToDTS config p w
      = (inl (UserError foreign_file_message), w).
Proof.
  intros Hfound Hfile Hmarker.
  assert (H : ∀ env mods fmt, writeDTSFile env mods fmt p w
                              = (inl (UserError foreign_file_message), w)).
  { intros env' mods' fmt'.
    rewrite writeDTSFile_cases, ownership_try_catch, Hfound, Hfile, Hmarker.
    reflexivity. }
  split; [apply H|].
  intros getEntry configToDTS config Hmain Hsite.
  rewrite (generateTypes_modules getEntry configToDTS config Hmain Hsite).
  apply H.
Qed.

Lemma foreign_file_aborts_witness :
  writeDTSFile [] [] modules project foreign_world
  = (inl (UserError foreign_file_message), foreign_world).
Proof.
  apply (foreign_file_aborts [] [] modules project foreign_world
           ["home"; "me"; "worker"; declaration_file]
           "declare const MY_GLOBAL: string;");
    reflexivity.
Defined.

(** C8, the code against the claim: the catch clause takes an error for
    the not-found case when its message contains "not found".  In a directory
    named [not found] the permission error of the read carries that text in
    its path: it is dropped and the run goes on, for any lists and format,
    where the claim has every error other than not-found thrown again.  And
    the error of a file that is missing when it is read says "no such file or
    directory": the catch clause throws it again, where the claim has the
    not-found case absorbed. *)
Theorem not_found_test_misfires :
  (∀ env mods fmt,
     writeDTSFile env mods fmt not_found_project denied_world
     = (inr tt, written env mods fmt not_found_project denied_world))
  ∧ writeDTSFile [] [] modules not_found_project denied_world
    = (inr tt, denied_world)
  ∧ try_catch (ownership_check (Some ["home"; "me"; "worker"; declaration_file]))
      ownership_catch project empty_world
    = (inl (SystemError
              "ENOENT: no such file or directory, open '/home/me/worker/worker-configuration.d.ts'"),
       empty_world).
Proof.
  split; [|split; reflexivity].
  intros env mods fmt.
  rewrite writeDTSFile_cases, ownership_try_catch. reflexivity.
Qed.

End OwnershipClaims.

(** ** The write *)

Section WriteClaims.
Import JS.

Lemma no_config_lists :
  envTypeStructure no_config = [] ∧ modulesTypeStructure no_config = [].
Proof. split; reflexivity. Qed.

(** C6: with both lists empty, [writeDTSFile] ends in the world it
    started in, files and log alike; when no foreign file (and no fatal
    read error) stops the run, it returns normally.  The same holds for
    [generateTypes] at the configuration with no bindings and no rules. *)
Theorem nothing_to_write (fmt : CfScriptFormat) (p : Process) (w : World) :
  (writeDTSFile [] [] fmt p w).2 = w
  ∧ (ownership_ok p w = true →
     writeDTSFile [] [] fmt p w = (inr tt, w)
     ∧ ∀ getEntry, generateTypes getEntry no_config no_config p w = (inr tt, w)).
Proof.
  split.
  - rewrite writeDTSFile_cases.
    destruct (try_catch _ _ p w) as [[e|[]] w']; reflexivity.
  - intros Hok. split.
    + apply (writeDTSFile_ok [] [] fmt p w Hok).
    + intros getEntry.
      rewrite (generateTypes_modules getEntry no_config no_config eq_refl eq_refl).
      apply (writeDTSFile_ok [] [] modules p w Hok).
Qed.

Lemma nothing_to_write_witness :
  writeDTSFile [] [] service_worker project ancestor_world
  = (inr tt, ancestor_world).
Proof.
  destruct (nothing_to_write service_worker project ancestor_world) as [_ H].
  apply H. reflexivity.
Defined.

(** C10: a run that returns with something to write has written
    [worker-configuration.d.ts] in the working directory and no other path.
    When the search had found the file in an ancestor directory, there was
    no such file in the working directory before; the ancestor's file is as
    it was, and the working directory has the new file. *)
Theorem write_targets_working_directory (env mods : list string)
    (fmt : CfScriptFormat) (p : Process) (w w' : World) :
  env ≠ [] ∨ mods ≠ [] →
  writeDTSFile env mods fmt p w = (inr tt, w') →
  files w'
  = <[cwd p ++ ["worker-configuration.d.ts"]
      := File (file_text (now p) (combinedTypeStrings env mods fmt))]> (files w)
  ∧ (∀ path, path ≠ cwd p ++ ["worker-configuration.d.ts"] →
       files w' !! path = files w !! path)
  ∧ (∀ ancestor, found p w = Some ancestor →
       ancestor ≠ cwd p ++ ["worker-configuration.d.ts"] →
       files w !! (cwd p ++ ["worker-configuration.d.ts"]) = None
       ∧ files w' !! ancestor = files w !! ancestor
       ∧ files w' !! (cwd p ++ ["worker-configuration.d.ts"])
         = Some (File (file_text (now p) (combinedTypeStrings env mods fmt)))).
Proof.
  intros Hne Hrun. apply writeDTSFile_return in Hrun. subst w'.
  assert (Hfiles : files (written env mods fmt p w)
            = <[target p := File (file_text (now p) (combinedTypeStrings env mods fmt))]>
                (files w)).
  { unfold written. destruct env, mods; try reflexivity.
    destruct Hne as [H|H]; by destruct H. }
  rewrite Hfiles. fold declaration_file. fold (target p).
  split; [reflexivity | split].
  - intros path Hpath. by apply lookup_insert_ne.
  - intros ancestor Hfound Hanc. split; [|split].
    + apply (found_ancestor p w ancestor Hfound Hanc).
    + by apply lookup_insert_ne.
    + apply lookup_insert_eq.
Qed.

Lemma write_targets_working_directory_witness :
  let w' := (writeDTSFile ["KV: KVNamespace;"] [] modules project ancestor_world).2 in
  files ancestor_world !! ["home"; "me"; "worker"; declaration_file] = None
  ∧ files w' !! ["home"; "me"; declaration_file]
    = Some (File "// Generated by Wrangler on Sun Nov 01 2026")
  ∧ files w' !! ["home"; "me"; "worker"; declaration_file]
    = Some (File (file_text (now project)
                    (combinedTypeStrings ["KV: KVNamespace;"] [] modules))).
Proof.
  intros w'.
  destruct (write_targets_working_directory ["KV: KVNamespace;"] [] modules
              project ancestor_world w') as (_ & _ & H).
  - left. discriminate.
  - reflexivity.
  - destruct (H ["home"; "me"; declaration_file]) as (H1 & H2 & H3).
    + reflexivity.
    + discriminate.
    + split; [exact H1 | split; [|exact H3]].
      rewrite H2. reflexivity.
Defined.

End WriteClaims.

(** ** The two shapes, and what varies between runs *)

Section ShapeClaims.
Import JS.

Lemma written_files (env mods : list string) (fmt : CfScriptFormat)
    (p : Process) (w : World) :
  env ≠ [] ∨ mods ≠ [] →
  files (written env mods fmt p w) !! target p
  = Some (File (file_text (now p) (combinedTypeStrings env mods fmt)))
  ∧ logged (written env mods fmt p w)
    = logged w ++ [combinedTypeStrings env mods fmt].
Proof.
  intros Hne. unfold written.
  destruct env, mods; try (split; [apply lookup_insert_eq | reflexivity]).
  destruct Hne as [H|H]; by destruct H.
Qed.

(** C5: for lists that are not both empty and a world where the ownership
    check passes, both formats write the same header, the same members and
    the same module declarations; under [modules] each member stands,
    after a tab, inside [interface Env { }], under the other format each
    stands, after a tab and [const], inside [declare global { }] that
    follows [export {};]. *)
Theorem format_selects_wrapping (env mods : list string) (p : Process)
    (w : World) :
  env ≠ [] ∨ mods ≠ [] →
  ownership_ok p w = true →
  ∃ wm ws,
    writeDTSFile env mods modules p w = (inr tt, wm)
    ∧ writeDTSFile env mods service_worker p w = (inr tt, ws)
    ∧ files wm !! (cwd p ++ ["worker-configuration.d.ts"])
      = Some (File ("// Generated by Wrangler on " +:+ now p +:+ nl
                      +:+ "interface Env {" +:+ nl
                      +:+ join nl (map (λ member, tab +:+ member) env)
                      +:+ nl +:+ "}" +:+ nl +:+ join nl mods))
    ∧ files ws !! (cwd p ++ ["worker-configuration.d.ts"])
      = Some (File ("// Generated by Wrangler on " +:+ now p +:+ nl
                      +:+ "export {};" +:+ nl +:+ "declare global {" +:+ nl
                      +:+ join nl (map (λ member, tab +:+ "const " +:+ member) env)
                      +:+ nl +:+ "}" +:+ nl +:+ join nl mods)).
Proof.
  intros Hne Hok.
  exists (written env mods modules p w), (written env mods service_worker p w).
  split; [apply (writeDTSFile_ok _ _ _ _ _ Hok)|].
  split; [apply (writeDTSFile_ok _ _ _ _ _ Hok)|].
  split.
  - apply (written_files env mods modules p w Hne).
  - apply (written_files env mods service_worker p w Hne).
Qed.

Lemma format_selects_wrapping_witness :
  ∃ wm ws,
    writeDTSFile ["KV: KVNamespace;"] [] modules project empty_world = (inr tt, wm)
    ∧ writeDTSFile ["KV: KVNamespace;"] [] service_worker project empty_world
      = (inr tt, ws)
    ∧ files wm !! ["home"; "me"; "worker"; declaration_file]
      = Some (File ("// Generated by Wrangler on " +:+ now project +:+ nl
                      +:+ "interface Env {" +:+ nl
                      +:+ tab +:+ "KV: KVNamespace;" +:+ nl +:+ "}" +:+ nl))
    ∧ files ws !! ["home"; "me"; "worker"; declaration_file]
      = Some (File ("// Generated by Wrangler on " +:+ now project +:+ nl
                      +:+ "export {};" +:+ nl +:+ "declare global {" +:+ nl
                      +:+ tab +:+ "const KV: KVNamespace;" +:+ nl +:+ "}" +:+ nl)).
Proof.
  destruct (format_selects_wrapping ["KV: KVNamespace;"] [] project empty_world)
    as (wm & ws & Hm & Hs & Hfm & Hfs).
  - left. discriminate.
  - reflexivity.
  - exists wm, ws. split; [exact Hm | split; [exact Hs | split]].
    + exact Hfm.
    + exact Hfs.
Defined.

(** C3, as stated, fails: the same configuration, format, directory and
    file system at two moments give two files that differ, in the date of
    the header line. *)
Lemma timestamp_varies :
  generateTypes (λ _, ret modules) kv_config kv_config project empty_world
  = (inr tt, written (envTypeStructure kv_config) (modulesTypeStructure kv_config)
               modules project empty_world)
  ∧ generateTypes (λ _, ret modules) kv_config kv_config project_later empty_world
    = (inr tt, written (envTypeStructure kv_config) (modulesTypeStructure kv_config)
                 modules project_later empty_world)
  ∧ files (generateTypes (λ _, ret modules) kv_config kv_config project
             empty_world).2
      !! ["home"; "me"; "worker"; declaration_file]
    ≠ files (generateTypes (λ _, ret modules) kv_config kv_config project_later
               empty_world).2
        !! ["home"; "me"; "worker"; declaration_file].
Proof.
  split; [reflexivity | split; [reflexivity|]].
  intros H. vm_compute in H. discriminate H.
Qed.

(** C3, amended: the two lists are functions of the configuration alone,
    the kinds in the fixed order and the entries of a kind in collection
    order; two runs on the same configuration and format that return, in
    any two directories, worlds and moments, log the same body and write
    files that consist of the header line with the date of the run followed
    by that body.  With equal dates the files are identical. *)
Theorem runs_differ_in_date_only (cfg : Config) (fmt : CfScriptFormat)
    (p1 p2 : Process) (w1 w2 w1' w2' : World) :
  envTypeStructure cfg ≠ [] ∨ modulesTypeStructure cfg ≠ [] →
  writeDTSFile (envTypeStructure cfg) (modulesTypeStructure cfg) fmt p1 w1
  = (inr tt, w1') →
  writeDTSFile (envTypeStructure cfg) (modulesTypeStructure cfg) fmt p2 w2
  = (inr tt, w2') →
  ∃ body,
    body = combinedTypeStrings
             (concat (map (kind_members cfg) kind_order))
             (concat (map (rule_body []) (default [] (rules cfg)))) fmt
    ∧ files w1' !! (cwd p1 ++ ["worker-configuration.d.ts"])
      = Some (File ("// Generated by Wrangler on " +:+ now p1 +:+ nl +:+ body))
    ∧ files w2' !! (cwd p2 ++ ["worker-configuration.d.ts"])
      = Some (File ("// Generated by Wrangler on " +:+ now p2 +:+ nl +:+ body))
    ∧ logged w1' = logged w1 ++ [body]
    ∧ logged w2' = logged w2 ++ [body]
    ∧ (now p1 = now p2 →
       files w1' !! (cwd p1 ++ ["worker-configuration.d.ts"])
       = files w2' !! (cwd p2 ++ ["worker-configuration.d.ts"])).
Proof.
  intros Hne H1 H2.
  apply writeDTSFile_return in H1, H2. subst w1' w2'.
  destruct (written_files _ _ fmt p1 w1 Hne) as [Hf1 Hl1].
  destruct (written_files _ _ fmt p2 w2 Hne) as [Hf2 Hl2].
  exists (combinedTypeStrings (envTypeStructure cfg) (modulesTypeStructure cfg) fmt).
  split; [by rewrite envTypeStructure_by_kind, modulesTypeStructure_by_rule|].
  split; [exact Hf1 | split; [exact Hf2 | split; [exact Hl1 | split; [exact Hl2|]]]].
  intros Hnow. unfold target, declaration_file in Hf1, Hf2.
  rewrite Hf1, Hf2, Hnow. reflexivity.
Qed.

Lemma runs_differ_in_date_only_witness :
  ∃ body,
    files (written (envTypeStructure kv_config) (modulesTypeStructure kv_config)
             modules project empty_world)
      !! ["home"; "me"; "worker"; declaration_file]
    = Some (File ("// Generated by Wrangler on " +:+ now project +:+ nl +:+ body))
    ∧ files (written (envTypeStructure kv_config) (modulesTypeStructure kv_config)
               modules project_later ancestor_world)
        !! ["home"; "me"; "worker"; declaration_file]
      = Some (File ("// Generated by Wrangler on " +:+ now project_later +:+ nl
                      +:+ body)).
Proof.
  destruct (runs_differ_in_date_only kv_config modules project project_later
              empty_world ancestor_world
              (written (envTypeStructure kv_config) (modulesTypeStructure kv_config)
                 modules project empty_world)
              (written (envTypeStructure kv_config) (modulesTypeStructure kv_config)
                 modules project_later ancestor_world))
    as (body & _ & Hf1 & Hf2 & _).
  - left. discriminate.
  - reflexivity.
  - reflexivity.
  - exists body. split; [exact Hf1 | exact Hf2].
Defined.

End ShapeClaims.

(** * Further properties *)

(** ** The extension taken from a glob *)

Section ExtensionFacts.
Import JS.

Lemma rev_app_append (a b c : string) :
  String.rev_app a b +:+ c = String.rev_app a (b +:+ c).
Proof.
  revert b. induction a as [|ch a IH]; intros b; [reflexivity|].
  apply (IH (String ch b)).
Qed.

Lemma split_go_dot_free (cur s : string) :
  dot_free s = true → split_go "." cur s = [String.rev cur +:+ s].
Proof.
  revert cur. induction s as [|c s IH]; intros cur Hs.
  - simpl. unfold String.rev. rewrite rev_app_append. reflexivity.
  - simpl in Hs. apply andb_true_iff in Hs as [Hc Hs].
    apply negb_true_iff in Hc. simpl. rewrite Hc, (IH _ Hs).
    unfold String.rev. rewrite !rev_app_append. reflexivity.
Qed.

Lemma last_cons_split_go (x : string) (cur s : string) :
  last (x :: split_go "." cur s) = last (split_go "." cur s).
Proof.
  destruct (split_go_last "." cur s) as [y Hy].
  destruct (split_go "." cur s); [discriminate | reflexivity].
Qed.

Lemma split_go_after_dot (cur pre rest : string) :
  last (split_go "." cur (pre +:+ String "." rest))
  = last (split_go "." EmptyString rest).
Proof.
  revert cur. induction pre as [|c pre IH]; intros cur.
  - change (EmptyString +:+ String "." rest) with (String "." rest).
    simpl. apply last_cons_split_go.
  - change (String c pre +:+ String "." rest)
      with (String c (pre +:+ String "." rest)).
    simpl. destruct (Ascii.eqb c ".").
    + rewrite last_cons_split_go. apply IH.
    + apply IH.
Qed.

(** X1: the declaration of a glob names the text after the last dot of
    the glob, whatever stands before that dot: [*.txt], [**/*.txt] and
    [docs/notes.v2.txt] all declare [*.txt]. *)
Theorem declaration_names_last_extension (ty pre ext : string) :
  dot_free ext = true →
  module_declaration ty (pre +:+ "." +:+ ext)
  = "declare module " +:+ dquote +:+ "*." +:+ ext +:+ dquote +:+ " {" +:+ nl
      +:+ tab +:+ "const value: " +:+ ty +:+ ";" +:+ nl
      +:+ tab +:+ "export default value;" +:+ nl
      +:+ "}".
Proof.
  intros Hext. unfold module_declaration, at_last, split.
  change (pre +:+ "." +:+ ext) with (pre +:+ String "." ext).
  rewrite split_go_after_dot, (split_go_dot_free _ _ Hext). reflexivity.
Qed.

Lemma declaration_names_last_extension_witness :
  module_declaration "string" "docs/notes.v2.txt"
  = module_declaration "string" "**/*.txt".
Proof.
  etransitivity.
  - exact (declaration_names_last_extension "string" "docs/notes.v2" "txt" eq_refl).
  - symmetry.
    exact (declaration_names_last_extension "string" "**/*" "txt" eq_refl).
Defined.

(** X2: a glob without any dot is taken whole as the extension: the glob
    [Makefile] declares the module pattern [*.Makefile]. *)
Theorem dotless_glob_is_the_extension (ty glob : string) :
  dot_free glob = true →
  module_declaration ty glob
  = "declare module " +:+ dquote +:+ "*." +:+ glob +:+ dquote +:+ " {" +:+ nl
      +:+ tab +:+ "const value: " +:+ ty +:+ ";" +:+ nl
      +:+ tab +:+ "export default value;" +:+ nl
      +:+ "}".
Proof.
  intros Hglob. unfold module_declaration, at_last, split.
  rewrite (split_go_dot_free _ _ Hglob). reflexivity.
Qed.

Lemma dotless_glob_is_the_extension_witness :
  module_declaration "ArrayBuffer" "Makefile"
  = "declare module " +:+ dquote +:+ "*.Makefile" +:+ dquote +:+ " {" +:+ nl
      +:+ tab +:+ "const value: ArrayBuffer;" +:+ nl
      +:+ tab +:+ "export default value;" +:+ nl
      +:+ "}".
Proof.
  exact (dotless_glob_is_the_extension "ArrayBuffer" "Makefile" eq_refl).
Defined.

End ExtensionFacts.

(** ** More on the member list *)

Section MemberFacts.
Import JS.

(** X3: a variable whose value is an array or an object (and so not
    [null]) gives the member [NAME: JSON;], its type being the JSON text of
    the value, without quotes around it. *)
Theorem structured_var_member (cfg : Config) (vs : list (string * value))
    (varName : string) (v : value) :
  vars cfg = Some vs → (varName, v) ∈ vs → structured v = true →
  varName +:+ ": " +:+ JSON_stringify v +:+ ";" ∈ envTypeStructure cfg.
Proof.
  intros Hvars Hin Hstruct.
  rewrite envTypeStructure_by_kind. apply list_elem_of_In, in_concat.
  exists (kind_members cfg Vars). split.
  - apply in_map. unfold kind_order. right; left; reflexivity.
  - apply list_elem_of_In. unfold kind_members. rewrite Hvars. simpl.
    apply list_elem_of_In, in_concat.
    exists (var_members varName v). split.
    + apply list_elem_of_In in Hin.
      apply (in_map (λ kv, var_members kv.1 kv.2)) in Hin. exact Hin.
    + unfold var_members. rewrite Hstruct.
      destruct (primitive v) eqn:Hp.
      * apply primitive_not_structured in Hp. congruence.
      * left. reflexivity.
Qed.

Lemma structured_var_member_witness :
  "LIMITS: {" +:+ dquote +:+ "max" +:+ dquote +:+ ":10," +:+ dquote +:+ "tags"
    +:+ dquote +:+ ":[" +:+ dquote +:+ "a" +:+ dquote +:+ "]};"
  ∈ envTypeStructure
      (with_vars no_config
         (Some [("LIMITS", VObject [("max", JNum (integer 10)); ("tags", JArr [JStr "a"])])])).
Proof.
  exact (structured_var_member
           (with_vars no_config
              (Some [("LIMITS", VObject [("max", JNum (integer 10)); ("tags", JArr [JStr "a"])])]))
           [("LIMITS", VObject [("max", JNum (integer 10)); ("tags", JArr [JStr "a"])])]
           "LIMITS" (VObject [("max", JNum (integer 10)); ("tags", JArr [JStr "a"])])
           eq_refl (list_elem_of_here _ _) eq_refl).
Defined.

(** X4: the two tests in the loop over [vars] never both hold: the loop
    adds one member for each variable that is a string, number, boolean,
    array or object, and none for any other, so the number of members it adds
    is the number of such variables. *)
Theorem vars_member_count (cfg : Config) (env : list string) :
  length (vars_block cfg env)
  = length env
    + length (filter (λ kv, primitive kv.2 || structured kv.2 = true)
                (default [] (vars cfg))).
Proof.
  rewrite vars_block_members, length_app. f_equal.
  unfold kind_members.
  induction (default [] (vars cfg)) as [|[n v] vs IH]; [reflexivity|].
  cbn [map concat]. rewrite length_app, IH, filter_cons. cbn [fst snd].
  unfold var_members.
  destruct (primitive v) eqn:Hp.
  - rewrite decide_True by reflexivity. reflexivity.
  - destruct (structured v).
    + rewrite decide_True by reflexivity. reflexivity.
    + rewrite decide_False by discriminate. reflexivity.
Qed.

(** X5: every member comes from an entry of the configuration: it has the
    form [IDENTIFIER: TYPE;] where IDENTIFIER is the identifier of an entry of
    some kind, or [LOGFWDR_SCHEMA] for log forwarding, and TYPE is the type
    name the table gives for that kind unless the entry is a variable. *)
Theorem members_come_from_entries (cfg : Config) (line : string) :
  line ∈ envTypeStructure cfg →
  ∃ k identifier type_text,
    line = identifier +:+ ": " +:+ type_text +:+ ";"
    ∧ (identifier ∈ identifiers cfg k
       ∨ k = Logfwdr ∧ identifier = "LOGFWDR_SCHEMA")
    ∧ (k = Vars ∨ type_text = type_name k).
Proof.
  rewrite envTypeStructure_by_kind.
  intros Hin. apply list_elem_of_In, in_concat in Hin as (seg & Hseg & Hline).
  apply in_map_iff in Hseg as (k & <- & _).
  apply list_elem_of_In in Hline.
  assert (Hfixed : line ∈ map (λ identifier, member_line identifier (type_name k))
                          (identifiers cfg k) →
          ∃ k identifier type_text,
            line = identifier +:+ ": " +:+ type_text +:+ ";"
            ∧ (identifier ∈ identifiers cfg k
               ∨ k = Logfwdr ∧ identifier = "LOGFWDR_SCHEMA")
            ∧ (k = Vars ∨ type_text = type_name k)).
  { intros H. apply list_elem_of_fmap in H as (i & -> & Hi).
    exists k, i, (type_name k). split; [reflexivity|]. split; [by left | by right]. }
  destruct k; try (apply Hfixed; exact Hline).
  - unfold kind_members, identifiers in *.
    destruct (vars cfg) as [vs|]; simpl in Hline; [|by apply elem_of_nil in Hline].
    apply list_elem_of_In, in_concat in Hline as (ls & Hls & Hline).
    apply in_map_iff in Hls as ([n v] & <- & Hnv).
    simpl in Hline. unfold var_members in Hline.
    assert (Hn : n ∈ default [] (map fst <$> Some vs)).
    { simpl. apply list_elem_of_fmap. exists (n, v). split; [reflexivity|].
      by apply list_elem_of_In. }
    destruct (primitive v); [|destruct (structured v)]; simpl in Hline;
      [destruct Hline as [<-|[]] | destruct Hline as [<-|[]] | destruct Hline].
    + exists Vars, n, (dquote +:+ ToString v +:+ dquote).
      split; [reflexivity | split; [left; exact Hn | by left]].
    + exists Vars, n, (JSON_stringify v).
      split; [reflexivity | split; [left; exact Hn | by left]].
  - unfold kind_members in Hline.
    destruct (identifiers cfg Logfwdr); [by apply elem_of_nil in Hline|].
    apply list_elem_of_singleton in Hline as ->.
    exists Logfwdr, "LOGFWDR_SCHEMA", "any".
    split; [reflexivity | split; [by right | by right]].
Qed.

Lemma members_come_from_entries_witness :
  ∃ k identifier type_text,
    "KV: KVNamespace;" = identifier +:+ ": " +:+ type_text +:+ ";"
    ∧ (identifier ∈ identifiers kv_config k
       ∨ k = Logfwdr ∧ identifier = "LOGFWDR_SCHEMA")
    ∧ (k = Vars ∨ type_text = type_name k).
Proof.
  apply (members_come_from_entries kv_config "KV: KVNamespace;").
  apply list_elem_of_here.
Defined.

End MemberFacts.

(** ** More on the writer *)

Section WriterInvariants.
Import JS.

Lemma prefix_append (a b : string) : String.prefix a (a +:+ b) = true.
Proof.
  induction a as [|c a IH]; [by destruct b|].
  change (String c a +:+ b) with (String c (a +:+ b)). simpl.
  destruct (ascii_dec c c); [exact IH | congruence].
Qed.

Lemma includes_prefix (needle hay : string) :
  String.prefix needle hay = true → includes needle hay = true.
Proof. intros H. destruct hay; cbn [includes]; rewrite H; reflexivity. Qed.

Lemma includes_cons (needle : string) (c : ascii) (hay : string) :
  includes needle hay = true → includes needle (String c hay) = true.
Proof. intros H. cbn [includes]. rewrite H. apply orb_true_r. Qed.

Lemma includes_append (needle pre post : string) :
  includes needle (pre +:+ needle +:+ post) = true.
Proof.
  induction pre as [|c pre IH].
  - change (EmptyString +:+ needle +:+ post) with (needle +:+ post).
    apply includes_prefix, prefix_append.
  - change (String c pre +:+ needle +:+ post)
      with (String c (pre +:+ needle +:+ post)).
    apply includes_cons, IH.
Qed.

Lemma marker_in_file_text (date body : string) :
  includes "Generated by Wrangler" (file_text date body) = true.
Proof.
  apply (includes_append "Generated by Wrangler" "// "
           (" on " +:+ date +:+ nl +:+ body)).
Qed.

(** A declaration file in the working directory is the one the search
    finds. *)
Lemma found_here (p : Process) (w : World) (n : node) :
  files w !! target p = Some n → found p w = Some (target p).
Proof.
  unfold found, target. intros Hn.
  destruct (rev (cwd p)) as [|d parent] eqn:Hrev;
    apply (f_equal (@rev string)) in Hrev; rewrite rev_involutive in Hrev;
    simpl in Hrev; rewrite Hrev in *; simpl in *; rewrite Hn; reflexivity.
Qed.

Lemma writeDTSFile_by_node env mods fmt p w :
  writeDTSFile env mods fmt p w
  = match check_outcome (nearest_node p w) with
    | inr _ => (inr tt, written env mods fmt p w)
    | inl e => (inl e, w)
    end.
Proof.
  rewrite writeDTSFile_cases, ownership_try_catch.
  unfold nearest_node, check_outcome.
  destruct (found p w) as [path|] eqn:Hfound; simpl; [|reflexivity].
  apply findUp_from_Some in Hfound as [n Hn]. rewrite Hn.
  destruct n as [content|msg].
  - destruct (includes "Generated by Wrangler" content); reflexivity.
  - destruct (includes "not found" msg); reflexivity.
Qed.

Lemma written_other env mods fmt p w path :
  path ≠ target p → files (written env mods fmt p w) !! path = files w !! path.
Proof.
  intros Hne. unfold written.
  destruct env, mods; try reflexivity; simpl; by rewrite lookup_insert_ne.
Qed.

(** X6: the ownership check, search and guarded read together, never
    changes the world, and it ends in one of three ways that tell what it
    saw.  It returns only when the search finds nothing, finds a readable
    file with the marker, or finds a file whose read fails with a message
    containing "not found"; it throws the foreign-file [UserError] only for a
    readable file without the marker; and it throws nothing else but the
    error of a failed read, only when its message does not contain
    "not found". *)
Theorem ownership_check_outcomes (p : Process) (w w' : World) (r : exn + unit) :
  (findUpSync "worker-configuration.d.ts"
     ≫= λ path, try_catch (ownership_check path) ownership_catch) p w = (r, w') →
  w' = w
  ∧ match r with
    | inr _ =>
        found p w = None
        ∨ ∃ path, found p w = Some path
            ∧ ((∃ content, files w !! path = Some (File content)
                  ∧ includes "Generated by Wrangler" content = true)
               ∨ (∃ msg, files w !! path = Some (Unreadable msg)
                    ∧ includes "not found" msg = true))
    | inl e =>
        ∃ path, found p w = Some path
          ∧ ((e = UserError foreign_file_message
              ∧ ∃ content, files w !! path = Some (File content)
                  ∧ includes "Generated by Wrangler" content = false)
             ∨ (∃ msg, e = SystemError msg
                  ∧ files w !! path = Some (Unreadable msg)
                  ∧ includes "not found" msg = false))
    end.
Proof.
  unfold mbind, M_bind, bind, findUpSync. fold declaration_file. fold (found p w).
  rewrite ownership_try_catch.
  destruct (found p w) as [path|] eqn:Hfound.
  - destruct (findUp_from_Some _ _ _ _ Hfound) as [n Hn]. rewrite Hn.
    destruct n as [content|msg].
    + destruct (includes "Generated by Wrangler" content) eqn:Hc;
        intros [= <- <-]; (split; [reflexivity|]).
      * right. exists path. split; [reflexivity|]. left. by exists content.
      * exists path. split; [reflexivity|]. left. split; [reflexivity|].
        by exists content.
    + destruct (includes "not found" msg) eqn:Hm;
        intros [= <- <-]; (split; [reflexivity|]).
      * right. exists path. split; [reflexivity|]. right. by exists msg.
      * exists path. split; [reflexivity|]. right. by exists msg.
  - intros [= <- <-]. split; [reflexivity | by left].
Qed.

Lemma ownership_check_outcomes_witness :
  ∃ path,
    found project unreadable_world = Some path
    ∧ files unreadable_world !! path
      = Some (Unreadable "EACCES: permission denied, open 'worker-configuration.d.ts'").
Proof.
  destruct (ownership_check_outcomes project unreadable_world unreadable_world
              (inl (SystemError
                      "EACCES: permission denied, open 'worker-configuration.d.ts'"))
              eq_refl)
    as [_ (path & Hfound & [(Huser & _) | (msg & Hmsg & Hfile & _)])].
  - discriminate Huser.
  - exists path. split; [exact Hfound|]. injection Hmsg as <-. exact Hfile.
Defined.

(** X7: the writer never changes a file that it can read and whose content
    lacks the marker: whatever the lists, the format and the outcome of the
    run, every path that held such a file holds it afterwards.  (A file
    whose read fails is outside this: the check judges it by the message of
    the error, not by its content.) *)
Theorem foreign_file_never_overwritten (env mods : list string)
    (fmt : CfScriptFormat) (p : Process) (w : World) (path : list string)
    (content : string) :
  files w !! path = Some (File content) →
  includes "Generated by Wrangler" content = false →
  files (writeDTSFile env mods fmt p w).2 !! path = Some (File content).
Proof.
  intros Hfile Hmarker. rewrite writeDTSFile_by_node.
  destruct (decide (path = target p)) as [->|Hne].
  - unfold nearest_node. rewrite (found_here p w _ Hfile). simpl.
    rewrite Hfile. unfold check_outcome. rewrite Hmarker. exact Hfile.
  - destruct (check_outcome (nearest_node p w)) as [e|[]]; simpl.
    + exact Hfile.
    + rewrite (written_other env mods fmt p w path Hne). exact Hfile.
Qed.

Lemma foreign_file_never_overwritten_witness :
  files (writeDTSFile ["KV: KVNamespace;"] [] modules project shadowing_world).2
    !! ["home"; "me"; declaration_file]
  = Some (File "declare const MY_GLOBAL: string;").
Proof.
  apply (foreign_file_never_overwritten ["KV: KVNamespace;"] [] modules project
           shadowing_world ["home"; "me"; declaration_file]
           "declare const MY_GLOBAL: string;");
    reflexivity.
Defined.

(** X8: regeneration.  After a run that wrote the file, a further run
    from the same directory, at any date and with any lists and format,
    passes the ownership check: it returns, and if it has something to write
    the file then holds the text of that further run. *)
Theorem regeneration_overwrites (env mods env2 mods2 : list string)
    (fmt fmt2 : CfScriptFormat) (p p2 : Process) (w w1 : World) :
  env ≠ [] ∨ mods ≠ [] →
  writeDTSFile env mods fmt p w = (inr tt, w1) →
  cwd p2 = cwd p →
  ∃ w2,
    writeDTSFile env2 mods2 fmt2 p2 w1 = (inr tt, w2)
    ∧ (env2 ≠ [] ∨ mods2 ≠ [] →
       files w2 !! (cwd p ++ ["worker-configuration.d.ts"])
       = Some (File ("// Generated by Wrangler on " +:+ now p2 +:+ nl
                       +:+ combinedTypeStrings env2 mods2 fmt2)))
    ∧ (env2 = [] → mods2 = [] → w2 = w1).
Proof.
  intros Hne Hrun Hcwd. apply writeDTSFile_return in Hrun. subst w1.
  destruct (written_files env mods fmt p w Hne) as [Hfile _].
  assert (Htarget : target p2 = target p) by (unfold target; by rewrite Hcwd).
  rewrite <- Htarget in Hfile.
  exists (written env2 mods2 fmt2 p2 (written env mods fmt p w)).
  split; [|split].
  - rewrite writeDTSFile_by_node. unfold nearest_node.
    rewrite (found_here _ _ _ Hfile). simpl. rewrite Hfile.
    unfold check_outcome. rewrite marker_in_file_text. reflexivity.
  - intros Hne2. fold declaration_file. fold (target p). rewrite <- Htarget.
    apply (written_files env2 mods2 fmt2 p2 _ Hne2).
  - intros -> ->. reflexivity.
Qed.

Lemma regeneration_overwrites_witness :
  ∃ w2,
    writeDTSFile ["DB: D1Database;"] [] service_worker project_later
      (written ["KV: KVNamespace;"] [] modules project empty_world)
    = (inr tt, w2)
    ∧ files w2 !! ["home"; "me"; "worker"; declaration_file]
      = Some (File ("// Generated by Wrangler on " +:+ now project_later +:+ nl
                      +:+ combinedTypeStrings ["DB: D1Database;"] [] service_worker)).
Proof.
  destruct (regeneration_overwrites ["KV: KVNamespace;"] [] ["DB: D1Database;"] []
              modules service_worker project project_later empty_world
              (written ["KV: KVNamespace;"] [] modules project empty_world))
    as (w2 & Hrun & Hfile & _).
  - left. discriminate.
  - reflexivity.
  - reflexivity.
  - exists w2. split; [exact Hrun|]. apply Hfile. left. discriminate.
Defined.

(** X9: the marker test is a substring test: a file in the working
    directory whose text contains "Generated by Wrangler" anywhere passes the
    ownership check, so a run with something to write replaces it. *)
Theorem marker_anywhere_counts (env mods : list string) (fmt : CfScriptFormat)
    (p : Process) (w : World) (before after : string) :
  env ≠ [] ∨ mods ≠ [] →
  files w !! (cwd p ++ ["worker-configuration.d.ts"])
  = Some (File (before +:+ "Generated by Wrangler" +:+ after)) →
  ∃ w',
    writeDTSFile env mods fmt p w = (inr tt, w')
    ∧ files w' !! (cwd p ++ ["worker-configuration.d.ts"])
      = Some (File ("// Generated by Wrangler on " +:+ now p +:+ nl
                      +:+ combinedTypeStrings env mods fmt)).
Proof.
  intros Hne Hfile. fold declaration_file in *. fold (target p) in *.
  exists (written env mods fmt p w). split.
  - rewrite writeDTSFile_by_node. unfold nearest_node.
    rewrite (found_here _ _ _ Hfile). simpl. rewrite Hfile.
    unfold check_outcome. rewrite includes_append. reflexivity.
  - apply (written_files env mods fmt p w Hne).
Qed.

Lemma marker_anywhere_counts_witness :
  ∃ w',
    writeDTSFile ["KV: KVNamespace;"] [] modules project
      {| files := {[ ["home"; "me"; "worker"; declaration_file]
                     := File "// my own types. Not Generated by Wrangler!" ]};
         logged := [] |}
    = (inr tt, w')
    ∧ files w' !! ["home"; "me"; "worker"; declaration_file]
      = Some (File ("// Generated by Wrangler on " +:+ now project +:+ nl
                      +:+ combinedTypeStrings ["KV: KVNamespace;"] [] modules)).
Proof.
  apply (marker_anywhere_counts ["KV: KVNamespace;"] [] modules project
           {| files := {[ ["home"; "me"; "worker"; declaration_file]
                          := File "// my own types. Not Generated by Wrangler!" ]};
              logged := [] |}
           "// my own types. Not " "!").
  - left. discriminate.
  - reflexivity.
Defined.

Lemma findUp_agree (rd : list string) (name : string)
    (fs1 fs2 : gmap (list string) node) :
  (∀ dir, dir `prefix_of` rev rd → fs1 !! (dir ++ [name]) = fs2 !! (dir ++ [name])) →
  (findUp_from rd name fs1 ≫= λ path, fs1 !! path)
  = (findUp_from rd name fs2 ≫= λ path, fs2 !! path).
Proof.
  induction rd as [|d parent IH]; intros H.
  - simpl. pose proof (H [] (prefix_nil _)) as H0. simpl in H0. rewrite <- H0.
    destruct (fs1 !! [name]) eqn:E; simpl; [by rewrite <- H0, E | reflexivity].
  - simpl. pose proof (H (rev (d :: parent)) (reflexivity _)) as H0.
    simpl in H0. rewrite <- H0.
    destruct (fs1 !! ((rev parent ++ [d]) ++ [name])) eqn:E; simpl.
    + by rewrite <- H0, E.
    + apply IH. intros dir Hdir. apply H. simpl. by apply prefix_app_r.
Qed.

(** X10: the outcome of a run depends on the file system only through the
    declaration files of the working directory and of its ancestors: two
    worlds that agree on those give the same result, whatever else they hold,
    declaration files in sibling or child directories included. *)
Theorem check_reads_only_the_ancestors (env mods : list string)
    (fmt : CfScriptFormat) (p : Process) (w1 w2 : World) :
  (∀ dir, dir `prefix_of` cwd p →
     files w1 !! (dir ++ ["worker-configuration.d.ts"])
     = files w2 !! (dir ++ ["worker-configuration.d.ts"])) →
  (writeDTSFile env mods fmt p w1).1 = (writeDTSFile env mods fmt p w2).1.
Proof.
  intros Hagree. rewrite !writeDTSFile_by_node.
  assert (nearest_node p w1 = nearest_node p w2) as ->.
  { unfold nearest_node, found. apply findUp_agree.
    rewrite rev_involutive. exact Hagree. }
  destruct (check_outcome (nearest_node p w2)) as [e|[]]; reflexivity.
Qed.

Lemma check_reads_only_the_ancestors_witness :
  (writeDTSFile ["KV: KVNamespace;"] [] modules project sibling_world).1 = inr tt.
Proof.
  rewrite (check_reads_only_the_ancestors ["KV: KVNamespace;"] [] modules project
             sibling_world empty_world); [reflexivity|].
  intros dir [k Hk].
  destruct dir as [|a [|b [|c [|d dir]]]]; simplify_eq/=; reflexivity.
Defined.

(** X11: a configuration without an entry point that has import rules but
    no bindings still gets a file: an [interface Env] with nothing but an
    empty line inside, followed by the module declarations. *)
Theorem rules_only_gives_empty_interface (getEntry : Config → M CfScriptFormat)
    (configToDTS config : Config) (p : Process) (w : World) :
  main config = None →
  truthy_string (site config ≫= entry_point) = false →
  envTypeStructure configToDTS = [] →
  modulesTypeStructure configToDTS ≠ [] →
  ownership_ok p w = true →
  ∃ w',
    generateTypes getEntry configToDTS config p w = (inr tt, w')
    ∧ files w' !! (cwd p ++ ["worker-configuration.d.ts"])
      = Some (File ("// Generated by Wrangler on " +:+ now p +:+ nl
                      +:+ "interface Env {" +:+ nl +:+ nl +:+ "}" +:+ nl
                      +:+ join nl (modulesTypeStructure configToDTS))).
Proof.
  intros Hmain Hsite Henv Hmods Hok.
  rewrite (generateTypes_modules getEntry configToDTS config Hmain Hsite), Henv.
  exists (written [] (modulesTypeStructure configToDTS) modules p w).
  split; [apply (writeDTSFile_ok _ _ _ _ _ Hok)|].
  apply (written_files [] (modulesTypeStructure configToDTS) modules p w).
  by right.
Qed.

Lemma rules_only_gives_empty_interface_witness :
  ∃ w',
    generateTypes (λ _, ret modules) text_rule_config no_config project empty_world
    = (inr tt, w')
    ∧ files w' !! ["home"; "me"; "worker"; declaration_file]
      = Some (File ("// Generated by Wrangler on " +:+ now project +:+ nl
                      +:+ "interface Env {" +:+ nl +:+ nl +:+ "}" +:+ nl
                      +:+ join nl (modulesTypeStructure text_rule_config))).
Proof.
  apply (rules_only_gives_empty_interface (λ _, ret modules) text_rule_config
           no_config project empty_world); try reflexivity.
  discriminate.
Defined.

End WriterInvariants.
